(** * cheribuild helper programs: fixlinks.c and cheridis.c

    A shallow embedding of the two C programs under [pycheribuild/files]
    and the properties of them that the specification relies on.

    [Fixlinks] embeds [fixlinks.c]: one pass over the entries of the
    working directory that replaces every symbolic link with an absolute
    target by a link to ["../.."] followed by the old target.
    [Cheridis] embeds [cheridis.c]: the argument loop that feeds opcode
    bytes to the disassembler. *)

From Stdlib Require Import ZArith String Ascii List Lia.
From stdpp Require Import base gmap strings list pretty.

(** ** C strings and character arrays *)

Definition NUL : ascii := Ascii.zero.
Definition SLASH : ascii := "/"%char.

(** The text a [%s] conversion reads from a character array: everything
    before the first NUL. *)
Fixpoint c_str (mem : list ascii) : string :=
  match mem with
  | [] => EmptyString
  | c :: rest => if decide (c = NUL) then EmptyString else String c (c_str rest)
  end.

(** A string that C code can hold: no NUL inside. *)
Definition nul_free (s : string) : Prop :=
  Forall (λ c, c ≠ NUL) (list_ascii_of_string s).

(** The first [n] characters of a string. *)
Definition str_take (n : nat) (s : string) : string :=
  string_of_list_ascii (take n (list_ascii_of_string s)).

(** A path that starts at the root. *)
Definition absolute (t : string) : Prop :=
  match t with
  | String c _ => c = SLASH
  | EmptyString => False
  end.

(** [int] arithmetic: 32 bits, two's complement. *)
Definition INT_MAX : Z := 2147483647.
Definition int_wrap (z : Z) : Z := ((z + 2 ^ 31) `mod` 2 ^ 32 - 2 ^ 31)%Z.
Definition int_incr (z : Z) : Z := int_wrap (z + 1).

Module Fixlinks.

(** *** The operating system, as far as [fixlinks.c] talks to it *)

Inductive errno :=
  | EPERM | ENOENT | EIO | EACCES | EEXIST | EINVAL | ENOSPC | EROFS.

#[global] Instance errno_eq_dec : EqDecision errno.
Proof. solve_decision. Defined.

(** <sysexits.h> *)
Definition EX_USAGE : Z := 64.
Definition EX_OSERR : Z := 71.

(** What a name in the working directory refers to.  The contents of a
    symbolic link are what [symlink] was given: POSIX takes any string
    for them, the empty one included, and puts no bound of 1023 bytes on
    them. *)
Inductive node :=
  | RegularFile
  | SubDirectory
  | SymbolicLink (contents : string).

Inductive syscall := SYS_opendir | SYS_readlink | SYS_unlink | SYS_symlink.

#[global] Instance syscall_eq_dec : EqDecision syscall.
Proof. solve_decision. Defined.

(** The surroundings of one run.  [files] is the working directory when
    the program starts, [dirents] the names that [readdir] hands out, in
    the order it hands them out.  [faults] lists the calls that the
    system refuses for reasons outside the directory contents
    (permissions, I/O errors, ...), each with the [errno] it sets; an
    entry with [EINVAL] is no fault and is passed over, since [EINVAL]
    is the answer of [readlink] for a name that is not a link.
    [cwd] is the absolute path of the working directory.
    [getwd_allocates] tells what the C library does with [getwd(NULL)]:
    the BSD library takes the null pointer as a request to allocate the
    buffer and returns the path; the GNU library returns NULL.
    [stack] is what the
    memory of the automatic array [target] holds before anything is
    stored in it. *)
Record world := World {
  files : gmap string node;
  dirents : list string;
  faults : list (syscall * string * errno);
  cwd : string;
  getwd_allocates : bool;
  stack : nat → ascii;
}.

Fixpoint injected (fl : list (syscall * string * errno))
    (c : syscall) (path : string) : option errno :=
  match fl with
  | [] => None
  | (c', path', e) :: rest =>
      if decide (c' = c ∧ path' = path ∧ e ≠ EINVAL)
      then Some e else injected rest c path
  end.

(** [opendir(".")]: the directory stream, or NULL. *)
Definition sys_opendir (w : world) : option (list string) :=
  match injected (faults w) SYS_opendir "." with
  | Some _ => None
  | None => Some (dirents w)
  end.

(** [getwd(NULL)]: the path of the working directory, or NULL. *)
Definition sys_getwd (w : world) : option string :=
  if getwd_allocates w then Some (cwd w) else None.

(** [readlink(path, buf, bufsiz)]: the bytes placed in [buf], at most
    [bufsiz] of them and without a terminating NUL; the return value of
    the call is their number.  [EINVAL] when [path] is not a symbolic
    link. *)
Definition sys_readlink (w : world) (fs : gmap string node)
    (path : string) (bufsiz : nat) : errno + list ascii :=
  match injected (faults w) SYS_readlink path with
  | Some e => inl e
  | None =>
      match fs !! path with
      | None => inl ENOENT
      | Some (SymbolicLink t) => inr (take bufsiz (list_ascii_of_string t))
      | Some _ => inl EINVAL
      end
  end.

(** [unlink(path)] *)
Definition sys_unlink (w : world) (fs : gmap string node)
    (path : string) : errno + gmap string node :=
  match injected (faults w) SYS_unlink path with
  | Some e => inl e
  | None =>
      match fs !! path with
      | None => inl ENOENT
      | Some SubDirectory => inl EPERM
      | Some _ => inr (delete path fs)
      end
  end.

(** [symlink(contents, path)] *)
Definition sys_symlink (w : world) (fs : gmap string node)
    (contents path : string) : errno + gmap string node :=
  match injected (faults w) SYS_symlink path with
  | Some e => inl e
  | None =>
      match fs !! path with
      | Some _ => inl EEXIST
      | None => inr (<[path := SymbolicLink contents]> fs)
      end
  end.

(** The calls a run makes, with their results, in order. *)
Inductive event :=
  | EvReadlink (path : string) (res : errno + list ascii)
  | EvUnlink (path : string) (res : option errno)
  | EvSymlink (contents path : string) (res : option errno).

(** *** The program *)

(** How the process ends.  [Err] is [err(3)]: it writes the program
    name, [msg] and the text of [errno] to standard error and exits with
    [status].  [Errx] is [errx(3)]: the same without the [errno] text.
    [Undefined] is a call of [readdir] on a null directory stream. *)
Inductive outcome :=
  | Exited (status : Z) (stdout : string)
  | Err (status : Z) (msg : string) (e : errno)
  | Errx (status : Z) (msg : string)
  | Undefined.

(** The variables of [main] and the directory they act on.  The source
    declares [target] in the loop body and does not initialise it: a
    round finds in it what its memory holds, which is what the round
    before left there, and [stack] in the first round.  [trace] is not a
    variable of the program: it records the calls made. *)
Record state := State {
  st_files : gmap string node;
  target : list ascii;
  links : Z;
  fixed : Z;
  trace : list event;
}.

Inductive step :=
  | Continue (s : state)
  | Abort (o : outcome) (s : state).

Definition state_of (r : step) : state :=
  match r with Continue s => s | Abort _ s => s end.

Definition sizeof_target : nat := 1024.

(** The bytes [readlink] writes land at the start of the array; the rest
    of the array keeps what it held. *)
Definition store (bytes buf : list ascii) : list ascii :=
  bytes ++ drop (length bytes) buf.

(** The body of the [while] loop, for the entry [d_name]. *)
Definition loop_body (w : world) (s : state) (d_name : string) : step :=
  let r := sys_readlink w (st_files s) d_name (sizeof_target - 1) in
  let tr := trace s ++ [EvReadlink d_name r] in
  match r with
  | inl e =>
      if decide (e = EINVAL)
      then Continue (State (st_files s) (target s) (links s) (fixed s) tr)
      else Abort (Err EX_OSERR ("error in readlink('" +:+ d_name +:+ "')") e)
                 (State (st_files s) (target s) (links s) (fixed s) tr)
  | inr bytes =>
      let index := length bytes in
      let tgt := store bytes (target s) in
      let links' := int_incr (links s) in
      if decide (tgt !! 0 = Some SLASH) then
        let tgt' := <[index := NUL]> tgt in
        let newName := "../.." +:+ c_str tgt' in
        match sys_unlink w (st_files s) d_name with
        | inl e =>
            Abort (Err EX_OSERR "Failed to remove old link" e)
                  (State (st_files s) tgt' links' (fixed s)
                         (tr ++ [EvUnlink d_name (Some e)]))
        | inr fs1 =>
            let tr1 := tr ++ [EvUnlink d_name None] in
            match sys_symlink w fs1 newName d_name with
            | inl e =>
                Abort (Err EX_OSERR "Failed to create link" e)
                      (State fs1 tgt' links' (fixed s)
                             (tr1 ++ [EvSymlink newName d_name (Some e)]))
            | inr fs2 =>
                Continue (State fs2 tgt' links' (int_incr (fixed s))
                                (tr1 ++ [EvSymlink newName d_name None]))
            end
        end
      else Continue (State (st_files s) tgt links' (fixed s) tr)
  end.

(** The [while] loop over the names [readdir] returns. *)
Fixpoint scan (w : world) (s : state) (names : list string) : step :=
  match names with
  | [] => Continue s
  | d_name :: rest =>
      match loop_body w s d_name with
      | Continue s' => scan w s' rest
      | Abort o s' => Abort o s'
      end
  end.

(** The last two characters of the format string of the final [printf]:
    the source spells them with a doubled backslash, so they are a
    backslash and the letter n. *)
Definition backslash_n : string :=
  String (ascii_of_nat 92) (String (ascii_of_nat 110) EmptyString).

Definition LF : string := String (ascii_of_nat 10) EmptyString.

(** What [%s] prints for a pointer: the string, and the text [(null)]
    for a null pointer. *)
Definition percent_s (p : option string) : string :=
  match p with
  | Some str => str
  | None => "(null)"
  end.

Definition initial (w : world) : state :=
  State (files w) (map (stack w) (seq 0 sizeof_target)) 0 0 [].

Definition summary (s : state) : string :=
  "fixed " +:+ pretty (fixed s) +:+ "/" +:+ pretty (links s)
    +:+ " symbolic links" +:+ backslash_n.

Definition main (w : world) : outcome * state :=
  match sys_opendir w with
  | None => (Undefined, initial w)
  | Some names =>
      match scan w (initial w) names with
      | Abort o s => (o, s)
      | Continue s =>
          if decide (links s = 0%Z)
          then (Errx EX_USAGE ("no symbolic links in " +:+ percent_s (sys_getwd w)), s)
          else (Exited 0 (summary s), s)
      end
  end.

End Fixlinks.

Module Cheridis.

(** [p + n] for a pointer [p] into a string. *)
Fixpoint advance (n : nat) (p : string) : string :=
  match n, p with
  | O, _ => p
  | S n', String _ rest => advance n' rest
  | S _, EmptyString => EmptyString
  end.

(** What [%.ns] prints of the string at [p]: its first [n] characters,
    fewer when the string ends before. *)
Fixpoint precision (n : nat) (p : string) : string :=
  match n, p with
  | S n', String c rest => String c (precision n' rest)
  | _, _ => EmptyString
  end.

(** [fprintf(dis, "0x%.2s ", p)] *)
Definition fprintf_0x_2s (p : string) : string :=
  "0x" +:+ precision 2 p +:+ " ".

(** [for (byte = ...; byte < 8; byte += 2) fprintf(dis, ..., &inst[byte])];
    [fuel] bounds the number of rounds, and 8 rounds are more than the
    test [byte < 8] lets through. *)
Fixpoint for_byte (fuel byte : nat) (inst : string) : string :=
  match fuel with
  | O => EmptyString
  | S fuel' =>
      if (byte <? 8)%nat
      then fprintf_0x_2s (advance byte inst) +:+ for_byte fuel' (byte + 2) inst
      else EmptyString
  end.

(** The body of the loop over the arguments: what one argument adds to
    the input of the disassembler. *)
Definition instruction (arg : string) : string :=
  let inst := arg in
  if (String.length inst =? 10)%nat then
    if decide (String.get 0 inst ≠ Some "0"%char ∨ String.get 1 inst ≠ Some "x"%char)
    then EmptyString
    else for_byte 8 0 (advance 2 inst)
  else if negb (String.length inst =? 8)%nat then EmptyString
  else for_byte 8 0 inst.

(** [for (i = 1; i < argc; i++)]: the arguments after the program name. *)
Fixpoint arguments (args : list string) : string :=
  match args with
  | [] => EmptyString
  | arg :: rest => instruction arg +:+ arguments rest
  end.

(** Everything written to the pipe between [popen] and [pclose]. *)
Definition main (argv : list string) : string := arguments (tail argv).

End Cheridis.

Import Fixlinks.

Arguments sizeof_target : simpl never.
Arguments initial : simpl never.

(** ** Observations on a run *)

(** A [readlink] that returned a target. *)
Definition read_as_link (ev : event) : bool :=
  match ev with EvReadlink _ (inr _) => true | _ => false end.

(** A [symlink] that made the new link. *)
Definition link_made (ev : event) : bool :=
  match ev with EvSymlink _ _ None => true | _ => false end.

(** A call that removes or creates the entry [name]. *)
Definition modifies (name : string) (ev : event) : Prop :=
  match ev with
  | EvReadlink _ _ => False
  | EvUnlink path _ => path = name
  | EvSymlink _ path _ => path = name
  end.

Fixpoint count_events (p : event → bool) (tr : list event) : nat :=
  match tr with
  | [] => 0
  | ev :: rest => (if p ev then 1 else 0) + count_events p rest
  end.

(** The counters agree with the calls made so far, of which at most [k]
    were successful [readlink]s. *)
Definition counted (s : state) (k : nat) : Prop :=
  links s = Z.of_nat (count_events read_as_link (trace s))
  ∧ fixed s = Z.of_nat (count_events link_made (trace s))
  ∧ count_events link_made (trace s) ≤ count_events read_as_link (trace s)
  ∧ count_events read_as_link (trace s) ≤ k.

(** The three ways the program is meant to end. *)
Definition clean (o : outcome) : Prop :=
  (∃ out, o = Exited 0 out)
  ∨ (∃ msg, o = Errx EX_USAGE msg)
  ∨ (∃ msg e, o = Err EX_OSERR msg e).

(** The contract of [cheridis] in the words of the specification: a
    token is ["0x"], a pair of digits and a space; an instruction is the
    four pairs of its eight digits, in order. *)
Definition token (pair : string) : string := "0x" +:+ pair +:+ " ".

Definition tokens_of (digits : string) : string :=
  token (substring 0 2 digits) +:+ token (substring 2 2 digits)
    +:+ token (substring 4 2 digits) +:+ token (substring 6 2 digits).

(** ** Example directories *)

Definition zeroed : nat → ascii := λ _, NUL.

(** [a -> /opt/x/y], [b -> ../c] and the regular file [c]. *)
Definition scenario : world :=
  World (list_to_map [("."%string, SubDirectory); (".."%string, SubDirectory);
                      ("a"%string, SymbolicLink "/opt/x/y");
                      ("b"%string, SymbolicLink "../c");
                      ("c"%string, RegularFile)])
        ["."; ".."; "a"; "b"; "c"]%string [] "/rootfs/usr/lib" true zeroed.

(** Regular files and directories only. *)
Definition no_links : world :=
  World (list_to_map [("."%string, SubDirectory); (".."%string, SubDirectory);
                      ("c"%string, RegularFile); ("d"%string, SubDirectory)])
        ["."; ".."; "c"; "d"]%string [] "/rootfs/usr/lib" true zeroed.

(** A working directory that cannot be opened. *)
Definition unreadable : world :=
  World (list_to_map [("a"%string, SymbolicLink "/opt/x/y")])
        ["a"%string] [(SYS_opendir, "."%string, EACCES)] "/rootfs/usr/lib" true zeroed.

(** An absolute target of 1024 bytes: a slash and 1023 times the letter a. *)
Definition long_target : string :=
  string_of_list_ascii (SLASH :: repeat "a"%char 1023).

Definition long_link : world :=
  World (list_to_map [("a"%string, SymbolicLink long_target)])
        ["a"%string] [] "/rootfs/usr/lib" true zeroed.

(** One absolute link in a directory the process may not write. *)
Definition unlink_denied (name : string) : world :=
  World (list_to_map [(name, SymbolicLink "/opt/x/y")])
        [name] [(SYS_unlink, name, EACCES)] "/rootfs/usr/lib" true zeroed.

(** The same when the old link can be removed and the new one not made. *)
Definition symlink_denied (name : string) : world :=
  World (list_to_map [(name, SymbolicLink "/opt/x/y")])
        [name] [(SYS_symlink, name, ENOSPC)] "/rootfs/usr/lib" true zeroed.

(** The link [a] is rewritten, then [readlink] on [b] is refused. *)
Definition abort_after_fix (first : string) : world :=
  World (list_to_map [("a"%string, SymbolicLink first);
                      ("b"%string, SymbolicLink "/opt/z")])
        ["a"; "b"]%string [(SYS_readlink, "b"%string, EACCES)]
        "/rootfs/usr/lib" true zeroed.

(** An absolute link followed by a link with an empty target. *)
Definition empty_after_absolute : world :=
  World (list_to_map [("a"%string, SymbolicLink "/opt/x/y");
                      ("e"%string, SymbolicLink "")])
        ["a"; "e"]%string [] "/rootfs/usr/lib" true zeroed.

(** The directory a run of [w] leaves, scanned again by a process whose
    memory under [target] starts with [first_byte]. *)
Definition again (w : world) (first_byte : ascii) : world :=
  World (st_files (snd (main w))) (dirents w) (faults w) (cwd w)
        (getwd_allocates w)
        (λ _, first_byte).

(** A link with an empty target alone, and the byte that the memory of
    [target] starts with. *)
Definition empty_alone (first_byte : ascii) : world :=
  World (list_to_map [("e"%string, SymbolicLink "")])
        ["e"%string] [] "/rootfs/usr/lib" true (λ _, first_byte).


(** ** Further observations *)

(** Every [symlink] call of [tr] comes right after a successful [unlink]
    of the same name; [prev] is the call made before the first of [tr]. *)
Fixpoint preceded (prev : option event) (tr : list event) : Prop :=
  match tr with
  | [] => True
  | ev :: rest =>
      match ev with
      | EvSymlink _ path _ => prev = Some (EvUnlink path None)
      | _ => True
      end
      ∧ preceded (Some ev) rest
  end.

(** The contents handed to a [symlink] call start with ["../.."] and are
    at most 5 + 1023 bytes long. *)
Definition goes_up (ev : event) : Prop :=
  match ev with
  | EvSymlink contents _ _ =>
      (∃ x, contents = "../.." +:+ x) ∧ String.length contents ≤ 1028
  | _ => True
  end.

(** Whether a name of the directory [fs] is a symbolic link, and
    whether it is one with an absolute target. *)
Definition is_link (fs : gmap string node) (name : string) : bool :=
  match fs !! name with
  | Some (SymbolicLink _) => true
  | _ => false
  end.

Definition is_absolute_link (fs : gmap string node) (name : string) : bool :=
  match fs !! name with
  | Some (SymbolicLink (String c _)) => bool_decide (c = SLASH)
  | _ => false
  end.

(** What a finished pass makes of an entry: a link with an absolute
    target becomes a link to ["../.."] and the first 1023 bytes of that
    target; anything else stays. *)
Definition fixup (n : node) : node :=
  match n with
  | SymbolicLink (String c rest) =>
      if decide (c = SLASH)
      then SymbolicLink ("../.." +:+ str_take 1023 (String c rest))
      else n
  | _ => n
  end.

(** The same surroundings with [readdir] returning the names in the
    opposite order. *)
Definition reordered (w : world) : world :=
  World (files w) (reverse (dirents w)) (faults w) (cwd w)
        (getwd_allocates w) (stack w).

(** The arguments [cheridis] passes on. *)
Definition accepted (arg : string) : bool :=
  (String.length arg =? 8)%nat
  || ((String.length arg =? 10)%nat && String.prefix "0x" arg).

(** Regular files and directories only, on a host with the GNU C
    library. *)
Definition no_links_gnu : world :=
  World (files no_links) (dirents no_links) [] "/rootfs/usr/lib" false zeroed.

(** [readdir] returns a relative link 2^31 times. *)
Definition many_links : world :=
  World (list_to_map [("b"%string, SymbolicLink "../c")])
        (repeat "b"%string (Z.to_nat 2147483648)) [] "/rootfs/usr/lib" true
        zeroed.

(** [readdir] returns the name [gone], which the directory no longer has. *)
Definition vanished : world :=
  World (list_to_map [("a"%string, SymbolicLink "/opt/x/y")])
        ["a"; "gone"]%string [] "/rootfs/usr/lib" true zeroed.

(** ** Arithmetic, character arrays, system calls *)

Lemma int_incr_in_range (z : Z) :
  (0 ≤ z < INT_MAX)%Z → int_incr z = (z + 1)%Z.
Proof.
  unfold int_incr, int_wrap, INT_MAX. intros Hz.
  rewrite Z.mod_small; lia.
Qed.

Lemma injected_not_EINVAL fl c path : injected fl c path ≠ Some EINVAL.
Proof.
  induction fl as [|[[c' p'] e] rest IH]; simpl; [done|].
  case_decide as Hd; [|done]. destruct Hd as (_ & _ & He). congruence.
Qed.

Lemma c_str_terminated (bytes rest : list ascii) :
  Forall (λ c, c ≠ NUL) bytes →
  c_str (bytes ++ NUL :: rest) = string_of_list_ascii bytes.
Proof.
  induction 1 as [|c bytes Hc _ IH]; simpl.
  - by destruct (decide (NUL = NUL)).
  - destruct (decide (c = NUL)); [done|]. by rewrite IH.
Qed.

Lemma store_nil (buf : list ascii) : store [] buf = buf.
Proof. reflexivity. Qed.

Lemma store_lookup_0 c (bytes buf : list ascii) :
  store (c :: bytes) buf !! 0 = Some c.
Proof. reflexivity. Qed.

Lemma length_store (bytes buf : list ascii) :
  length bytes ≤ length buf → length (store bytes buf) = length buf.
Proof.
  intros Hle. unfold store. rewrite length_app, length_drop. lia.
Qed.

Lemma terminate_store (bytes buf : list ascii) :
  length bytes < length buf →
  <[length bytes := NUL]> (store bytes buf)
  = bytes ++ NUL :: drop (S (length bytes)) buf.
Proof.
  intros Hlt. unfold store.
  rewrite insert_app_r_alt, Nat.sub_diag; [|lia].
  destruct (drop (length bytes) buf) as [|c rest] eqn:Hd.
  - apply (f_equal length) in Hd. rewrite length_drop in Hd. simpl in Hd. lia.
  - simpl. f_equal. f_equal.
    change rest with (drop 1 (c :: rest)). rewrite <- Hd, drop_drop.
    f_equal. lia.
Qed.

Lemma sys_readlink_inr w fs path n bytes :
  sys_readlink w fs path n = inr bytes →
  ∃ t, fs !! path = Some (SymbolicLink t)
       ∧ bytes = take n (list_ascii_of_string t).
Proof.
  unfold sys_readlink. intros H.
  destruct (injected _ _ _); [done|].
  destruct (fs !! path) as [[| |t]|]; try done.
  exists t. split; congruence.
Qed.

Lemma sys_readlink_EINVAL w fs path n :
  sys_readlink w fs path n = inl EINVAL →
  fs !! path = Some RegularFile ∨ fs !! path = Some SubDirectory.
Proof.
  unfold sys_readlink. intros H.
  destruct (injected _ _ _) eqn:Hi.
  - exfalso. apply (injected_not_EINVAL (faults w) SYS_readlink path). congruence.
  - destruct (fs !! path) as [[| |t]|]; try done; auto.
Qed.

Lemma sys_unlink_inr w fs path fs1 :
  sys_unlink w fs path = inr fs1 → fs1 = delete path fs.
Proof.
  unfold sys_unlink. intros H.
  destruct (injected _ _ _); [done|].
  destruct (fs !! path) as [[| |t]|]; congruence.
Qed.

Lemma sys_symlink_inr w fs contents path fs2 :
  sys_symlink w fs contents path = inr fs2 →
  fs2 = <[path := SymbolicLink contents]> fs.
Proof.
  unfold sys_symlink. intros H.
  destruct (injected _ _ _); [done|].
  destruct (fs !! path); congruence.
Qed.

(** ** One round of the loop *)

(** The cases of a round: the result of each of its calls and of the
    test on the first byte. *)
Ltac body_cases :=
  unfold loop_body; cbv zeta;
  destruct (sys_readlink _ _ _ _) as [e|bytes] eqn:Hrl;
  [ case_decide
  | case_decide;
    [ destruct (sys_unlink _ _ _) as [e|fs1] eqn:Hul;
      [ | destruct (sys_symlink _ _ _ _) as [e|fs2] eqn:Hsl ]
    | ] ];
  simpl.

Section Loop.

Context (w : world).

(** A round touches no name but its own. *)
Lemma loop_body_frame s d_name other :
  other ≠ d_name →
  st_files (state_of (loop_body w s d_name)) !! other = st_files s !! other.
Proof.
  intros Hne. body_cases; try done.
  - apply sys_unlink_inr in Hul as ->. by rewrite lookup_delete_ne.
  - apply sys_unlink_inr in Hul as ->. apply sys_symlink_inr in Hsl as ->.
    rewrite lookup_insert_ne, lookup_delete_ne; done.
Qed.

(** The array keeps its size. *)
Lemma loop_body_length s d_name :
  length (target s) = sizeof_target →
  length (target (state_of (loop_body w s d_name))) = sizeof_target.
Proof.
  intros Hlen.
  assert (Hst : ∀ bytes, sys_readlink w (st_files s) d_name (sizeof_target - 1) = inr bytes →
                length (store bytes (target s)) = sizeof_target).
  { intros bytes (t & _ & ->)%sys_readlink_inr.
    rewrite length_store; [done|]. rewrite length_take, Hlen.
    unfold sizeof_target. lia. }
  body_cases; rewrite ?length_insert; auto.
Qed.

(** An entry that is no symbolic link: nothing is counted, nothing is
    changed, whether the round goes on or the run stops. *)
Lemma loop_body_not_a_link s d_name :
  (∀ t, st_files s !! d_name ≠ Some (SymbolicLink t)) →
  let s' := state_of (loop_body w s d_name) in
  st_files s' = st_files s ∧ links s' = links s ∧ fixed s' = fixed s.
Proof.
  intros Hno. body_cases; try done;
    apply sys_readlink_inr in Hrl as (t & Ht & _); by destruct (Hno t).
Qed.

(** A link whose target starts with a character other than the slash:
    one [readlink], no other call, the directory as it was. *)
Lemma loop_body_relative s d_name c rest :
  st_files s !! d_name = Some (SymbolicLink (String c rest)) →
  c ≠ SLASH →
  let r := loop_body w s d_name in
  st_files (state_of r) = st_files s
  ∧ fixed (state_of r) = fixed s
  ∧ (∃ res, trace (state_of r) = trace s ++ [EvReadlink d_name res])
  ∧ (injected (faults w) SYS_readlink d_name = None →
     ∃ s', r = Continue s' ∧ links s' = int_incr (links s)).
Proof.
  intros Hn Hc.
  assert (Hfst : ∀ bytes,
            sys_readlink w (st_files s) d_name (sizeof_target - 1) = inr bytes →
            store bytes (target s) !! 0 ≠ Some SLASH).
  { intros bytes (t & Ht & ->)%sys_readlink_inr.
    rewrite Hn in Ht. injection Ht as <-. simpl. congruence. }
  assert (Hok : injected (faults w) SYS_readlink d_name = None →
            ∃ bytes, sys_readlink w (st_files s) d_name (sizeof_target - 1) = inr bytes).
  { intros Hi. unfold sys_readlink. rewrite Hi, Hn. eauto. }
  body_cases; try (by destruct (Hfst _ eq_refl)).
  - repeat split; eauto. by intros (? & ?)%Hok.
  - repeat split; eauto. by intros (? & ?)%Hok.
  - repeat split; eauto.
Qed.

(** A link whose target starts with the slash, in a round that goes on:
    the name now holds a link to ["../.."] followed by the text read
    from the array. *)
Lemma loop_body_absolute s d_name t s' :
  length (target s) = sizeof_target →
  st_files s !! d_name = Some (SymbolicLink t) →
  absolute t →
  loop_body w s d_name = Continue s' →
  ∃ x, st_files s' = <[d_name := SymbolicLink ("../.." +:+ x)]> (st_files s)
       ∧ (nul_free t → x = str_take (sizeof_target - 1) t)
       ∧ links s' = int_incr (links s)
       ∧ fixed s' = int_incr (fixed s).
Proof.
  intros Hlen Hn Habs.
  destruct t as [|c rest]; [done|]. simpl in Habs. subst c.
  body_cases; intros Hs'; try discriminate.
  - subst e. apply sys_readlink_EINVAL in Hrl as [?|?]; congruence.
  - injection Hs' as <-. simpl.
    apply sys_unlink_inr in Hul as ->. apply sys_symlink_inr in Hsl as ->.
    rewrite insert_delete_eq.
    eexists. split; [reflexivity|]. split; [|done].
    intros Hnf. apply sys_readlink_inr in Hrl as (t & Ht & ->).
    rewrite Hn in Ht. injection Ht as <-.
    rewrite terminate_store.
    + rewrite c_str_terminated; [done|]. by apply Forall_take.
    + rewrite length_take, Hlen. unfold sizeof_target. lia.
  - exfalso. apply sys_readlink_inr in Hrl as (t & Ht & ->).
    rewrite Hn in Ht. injection Ht as <-. by apply H.
Qed.

(** What a round can do to its own name: leave it, remove it (when the
    new link cannot be made), or put a link to ["../.."]... there. *)
Lemma loop_body_own s d_name :
  let s' := state_of (loop_body w s d_name) in
  st_files s' !! d_name = st_files s !! d_name
  ∨ st_files s' !! d_name = None
  ∨ ∃ x, st_files s' !! d_name = Some (SymbolicLink ("../.." +:+ x)).
Proof.
  body_cases; auto.
  - apply sys_unlink_inr in Hul as ->. right; left. apply lookup_delete_eq.
  - apply sys_unlink_inr in Hul as ->. apply sys_symlink_inr in Hsl as ->.
    right; right. eexists. apply lookup_insert_eq.
Qed.

(** ** The whole loop *)

Lemma scan_app s l1 l2 :
  scan w s (l1 ++ l2)
  = match scan w s l1 with
    | Continue s1 => scan w s1 l2
    | Abort o s1 => Abort o s1
    end.
Proof.
  revert s. induction l1 as [|d l1 IH]; intros s; simpl; [done|].
  destruct (loop_body w s d); [apply IH | done].
Qed.

(** A property of the state that every round keeps holds where the loop
    ends, however it ends. *)
Lemma scan_invariant (P : state → Prop) names :
  (∀ s d_name, P s → P (state_of (loop_body w s d_name))) →
  ∀ s, P s → P (state_of (scan w s names)).
Proof.
  intros Hstep. induction names as [|d rest IH]; intros s Hs; simpl; [done|].
  specialize (Hstep s d Hs).
  destruct (loop_body w s d) as [s1|o s1]; simpl in *; auto.
Qed.

Lemma scan_length s names :
  length (target s) = sizeof_target →
  length (target (state_of (scan w s names))) = sizeof_target.
Proof.
  apply (scan_invariant (λ s, length (target s) = sizeof_target)).
  intros. by apply loop_body_length.
Qed.

(** A link that is relative and not empty survives the loop, however
    the loop ends. *)
Lemma scan_keeps_relative s names name c rest :
  st_files s !! name = Some (SymbolicLink (String c rest)) →
  c ≠ SLASH →
  st_files (state_of (scan w s names)) !! name
  = Some (SymbolicLink (String c rest)).
Proof.
  intros Hn Hc. revert s Hn.
  apply (scan_invariant
           (λ s, st_files s !! name = Some (SymbolicLink (String c rest)))).
  intros s d Hs. destruct (decide (name = d)) as [<-|Hne].
  - by destruct (loop_body_relative s name c rest Hs Hc) as (-> & _).
  - by rewrite loop_body_frame.
Qed.

(** A link with an absolute target that the loop passes without
    stopping holds ["../.."] followed by what was read of the target. *)
Lemma scan_rewrites names : ∀ s s' name t,
  length (target s) = sizeof_target →
  name ∈ names →
  st_files s !! name = Some (SymbolicLink t) →
  absolute t →
  scan w s names = Continue s' →
  ∃ x, st_files s' !! name = Some (SymbolicLink ("../.." +:+ x))
       ∧ (nul_free t → x = str_take (sizeof_target - 1) t).
Proof.
  induction names as [|d rest IH]; intros s s' name t Hlen Hin Hn Habs Hscan.
  - by apply elem_of_nil in Hin.
  - simpl in Hscan.
    destruct (loop_body w s d) as [s1|o s1] eqn:Hb; [|done].
    destruct (decide (name = d)) as [<-|Hne].
    + destruct (loop_body_absolute s name t s1 Hlen Hn Habs Hb)
        as (x & Hfs & Hx & _).
      exists x. split; [|done].
      pose proof (scan_keeps_relative s1 rest name "."%char
                    ("./.." +:+ x)) as Hk.
      rewrite Hscan in Hk. apply Hk; [|done].
      rewrite Hfs. apply lookup_insert_eq.
    + apply (IH s1 s' name t); try done.
      * pose proof (loop_body_length s d Hlen) as Hl. by rewrite Hb in Hl.
      * apply elem_of_cons in Hin as [?|?]; done.
      * pose proof (loop_body_frame s d name Hne) as Hf.
        rewrite Hb in Hf. simpl in Hf. by rewrite Hf.
Qed.


(** *** Where the loop stops *)

Lemma loop_body_Abort s d_name o s' :
  loop_body w s d_name = Abort o s' →
  ∃ e, o = Err EX_OSERR ("error in readlink('" +:+ d_name +:+ "')") e
       ∨ o = Err EX_OSERR "Failed to remove old link" e
       ∨ o = Err EX_OSERR "Failed to create link" e.
Proof.
  body_cases; intros Hs; try discriminate; injection Hs as <- <-; eauto.
Qed.

Lemma scan_Abort names : ∀ s o s',
  scan w s names = Abort o s' →
  ∃ seen d_name rest s1,
    names = seen ++ d_name :: rest
    ∧ scan w s seen = Continue s1
    ∧ loop_body w s1 d_name = Abort o s'.
Proof.
  induction names as [|d rest IH]; intros s o s' Hscan; simpl in Hscan; [done|].
  destruct (loop_body w s d) as [s1|o1 s1] eqn:Hb.
  - destruct (IH _ _ _ Hscan) as (seen & d' & rest' & s2 & -> & Hd & Hb').
    exists (d :: seen), d', rest', s2. simpl. by rewrite Hb.
  - injection Hscan as <- <-. by exists [], d, rest, s.
Qed.

(** Once a round stops the run, the names after it play no part. *)
Lemma scan_stops s seen d_name rest s1 o s2 :
  scan w s seen = Continue s1 →
  loop_body w s1 d_name = Abort o s2 →
  scan w s (seen ++ d_name :: rest) = Abort o s2.
Proof.
  intros Hd Hb. rewrite scan_app, Hd. simpl. by rewrite Hb.
Qed.

Lemma sys_opendir_Some names :
  sys_opendir w = Some names → names = dirents w.
Proof. unfold sys_opendir. destruct (injected _ _ _); congruence. Qed.

Lemma length_initial : length (target (initial w)) = sizeof_target.
Proof. unfold initial. cbn [target]. by rewrite length_map, length_seq. Qed.

Lemma main_state :
  is_Some (sys_opendir w) →
  snd (main w) = state_of (scan w (initial w) (dirents w)).
Proof.
  intros [names Ho]. unfold main. rewrite Ho.
  apply sys_opendir_Some in Ho as ->.
  destruct (scan _ _ _) as [s|o s]; [|done]. by case_decide.
Qed.

Lemma main_Exited status out s :
  main w = (Exited status out, s) →
  scan w (initial w) (dirents w) = Continue s
  ∧ status = 0%Z ∧ out = summary s ∧ links s ≠ 0%Z.
Proof.
  unfold main. destruct (sys_opendir w) as [names|] eqn:Ho; [|done].
  apply sys_opendir_Some in Ho as ->.
  destruct (scan _ _ _) as [s1|o s1] eqn:Hscan.
  - case_decide; intros [= <- <- <-]; done.
  - intros [= -> <-].
    apply scan_Abort in Hscan as (? & ? & ? & ? & _ & _ & Hb).
    apply loop_body_Abort in Hb as (e & [?|[?|?]]); done.
Qed.

(** *** The counters *)

Lemma count_events_app p (l1 l2 : list event) :
  count_events p (l1 ++ l2) = count_events p l1 + count_events p l2.
Proof. induction l1 as [|ev l1 IH]; simpl; [done|]. rewrite IH. lia. Qed.

Lemma counted_mono s k k' : counted s k → k ≤ k' → counted s k'.
Proof. unfold counted. intros (? & ? & ? & ?) ?. repeat split; try done. lia. Qed.

Lemma loop_body_counted s d_name k :
  counted s k → (Z.of_nat k < INT_MAX)%Z →
  counted (state_of (loop_body w s d_name)) (S k).
Proof.
  unfold counted. intros (Hl & Hf & Hle & Hk) Hmax.
  assert (int_incr (links s) = (links s + 1)%Z) as Hil
    by (apply int_incr_in_range; lia).
  assert (int_incr (fixed s) = (fixed s + 1)%Z) as Hif
    by (apply int_incr_in_range; lia).
  body_cases; rewrite ?count_events_app; simpl;
    rewrite ?Hil, ?Hif; repeat split; lia.
Qed.

Lemma scan_counted names : ∀ s k,
  counted s k → (Z.of_nat (k + length names) ≤ INT_MAX)%Z →
  counted (state_of (scan w s names)) (k + length names).
Proof.
  induction names as [|d rest IH]; intros s k Hc Hmax; simpl in *.
  - by rewrite Nat.add_0_r.
  - pose proof (loop_body_counted s d k Hc ltac:(lia)) as Hc1.
    destruct (loop_body w s d) as [s1|o s1]; simpl in *.
    + replace (k + S (length rest)) with (S k + length rest) by lia.
      apply IH; [done|lia].
    + eapply counted_mono; [done|lia].
Qed.

Lemma counted_initial : counted (initial w) 0.
Proof. unfold counted, initial. cbn. repeat split; lia. Qed.

(** *** Strings *)

Lemma length_list_ascii_of_string t :
  length (list_ascii_of_string t) = String.length t.
Proof. induction t as [|c t IH]; simpl; [done|]. by rewrite IH. Qed.

Lemma str_take_all n t : String.length t ≤ n → str_take n t = t.
Proof.
  intros Hn. unfold str_take.
  rewrite take_ge by (rewrite length_list_ascii_of_string; lia).
  apply string_of_list_ascii_of_string.
Qed.

Lemma dotdot_relative x : ¬ absolute ("../.." +:+ x).
Proof. simpl. unfold SLASH. discriminate. Qed.

(** *** A second pass *)

(** No round makes a target absolute. *)
Lemma loop_body_keeps_not_absolute s d_name name :
  (∀ t, st_files s !! name = Some (SymbolicLink t) → ¬ absolute t) →
  ∀ t, st_files (state_of (loop_body w s d_name)) !! name
       = Some (SymbolicLink t) → ¬ absolute t.
Proof.
  intros Hs t. destruct (decide (name = d_name)) as [->|Hne].
  - destruct (loop_body_own s d_name) as [->|[->|(x & ->)]]; [auto|done|].
    intros [= <-]. apply dotdot_relative.
  - rewrite loop_body_frame by done. auto.
Qed.

(** No round makes a target empty. *)
Lemma loop_body_keeps_not_empty s d_name name :
  (∀ t, st_files s !! name = Some (SymbolicLink t) → t ≠ EmptyString) →
  ∀ t, st_files (state_of (loop_body w s d_name)) !! name
       = Some (SymbolicLink t) → t ≠ EmptyString.
Proof.
  intros Hs t. destruct (decide (name = d_name)) as [->|Hne].
  - destruct (loop_body_own s d_name) as [->|[->|(x & ->)]]; [auto|done|].
    by intros [= <-].
  - rewrite loop_body_frame by done. auto.
Qed.

(** A round that goes on leaves its own name without an absolute target. *)
Lemma loop_body_settles s d_name s' :
  length (target s) = sizeof_target →
  loop_body w s d_name = Continue s' →
  ∀ t, st_files s' !! d_name = Some (SymbolicLink t) → ¬ absolute t.
Proof.
  intros Hlen Hb.
  destruct (st_files s !! d_name) as [[| |t0]|] eqn:Hn.
  1,2,4: pose proof (loop_body_keeps_not_absolute s d_name d_name) as Hk;
         rewrite Hb in Hk; apply Hk; intros ?; by rewrite Hn.
  destruct t0 as [|c rest].
  - pose proof (loop_body_keeps_not_absolute s d_name d_name) as Hk.
    rewrite Hb in Hk. apply Hk. rewrite Hn. intros ? [= <-] Ha. exact Ha.
  - destruct (decide (c = SLASH)) as [->|Hc].
    + destruct (loop_body_absolute s d_name _ s' Hlen Hn eq_refl Hb)
        as (x & -> & _).
      intros t. rewrite lookup_insert_eq. intros [= <-]. apply dotdot_relative.
    + pose proof (loop_body_keeps_not_absolute s d_name d_name) as Hk.
      rewrite Hb in Hk. apply Hk. rewrite Hn. intros ? [= <-]. exact Hc.
Qed.

(** After a pass that ran to its end, no name it went through holds an
    absolute target. *)
Lemma scan_settles names : ∀ s s',
  length (target s) = sizeof_target →
  scan w s names = Continue s' →
  ∀ name t, name ∈ names →
    st_files s' !! name = Some (SymbolicLink t) → ¬ absolute t.
Proof.
  induction names as [|d rest IH]; intros s s' Hlen Hscan name t Hin.
  - by apply elem_of_nil in Hin.
  - simpl in Hscan. destruct (loop_body w s d) as [s1|o s1] eqn:Hb; [|done].
    assert (length (target s1) = sizeof_target) as Hlen1.
    { pose proof (loop_body_length s d Hlen) as Hl. by rewrite Hb in Hl. }
    destruct (decide (name ∈ rest)) as [Hr|Hr]; [by eapply IH|].
    apply elem_of_cons in Hin as [->|?]; [|done].
    revert t.
    pose proof (scan_invariant
      (λ s, ∀ t, st_files s !! d = Some (SymbolicLink t) → ¬ absolute t)
      rest (λ s0 d0, loop_body_keeps_not_absolute s0 d0 d) s1) as Hinv.
    rewrite Hscan in Hinv. apply Hinv.
    by apply (loop_body_settles s d s1).
Qed.

Lemma scan_keeps_not_empty names s name :
  (∀ t, st_files s !! name = Some (SymbolicLink t) → t ≠ EmptyString) →
  ∀ t, st_files (state_of (scan w s names)) !! name
       = Some (SymbolicLink t) → t ≠ EmptyString.
Proof.
  revert s.
  apply (scan_invariant
    (λ s, ∀ t, st_files s !! name = Some (SymbolicLink t) → t ≠ EmptyString)).
  intros s0 d0. apply loop_body_keeps_not_empty.
Qed.

(** A pass over names none of which holds an absolute or an empty
    target rewrites nothing. *)
Lemma scan_nothing_to_fix names : ∀ s,
  (∀ name t, name ∈ names → st_files s !! name = Some (SymbolicLink t) →
             t ≠ EmptyString ∧ ¬ absolute t) →
  st_files (state_of (scan w s names)) = st_files s
  ∧ fixed (state_of (scan w s names)) = fixed s.
Proof.
  induction names as [|d rest IH]; intros s Hall; simpl; [done|].
  assert (st_files (state_of (loop_body w s d)) = st_files s
          ∧ fixed (state_of (loop_body w s d)) = fixed s) as [Hf Hx].
  { destruct (st_files s !! d) as [[| |t]|] eqn:Hn.
    1,2,4: destruct (loop_body_not_a_link s d) as (? & _ & ?); try done;
           intros ?; by rewrite Hn.
    destruct (Hall d t) as [Hne Hna]; [apply list_elem_of_here|done|].
    destruct t as [|c t']; [done|].
    destruct (loop_body_relative s d c t' Hn) as (? & ? & _); [|done].
    intros ->. by apply Hna. }
  destruct (loop_body w s d) as [s1|o s1]; simpl in *; [|done].
  rewrite <- Hf, <- Hx. apply IH. intros name t Hin. rewrite Hf.
  apply Hall. by apply list_elem_of_further.
Qed.

End Loop.

(** ** The rewritten target *)

(** What the pass leaves in a link with an absolute target: ["../.."]
    and the first 1023 bytes of the old target. *)
Lemma rewrite_cut w out s' name t :
  main w = (Exited 0 out, s') →
  name ∈ dirents w →
  files w !! name = Some (SymbolicLink t) →
  absolute t →
  nul_free t →
  st_files s' !! name
  = Some (SymbolicLink ("../.." +:+ str_take (sizeof_target - 1) t)).
Proof.
  intros (Hscan & _)%main_Exited Hin Hn Habs Hnf.
  destruct (scan_rewrites w (dirents w) (initial w) s' name t)
    as (x & -> & Hx); auto using length_initial.
  by rewrite Hx.
Qed.

(** C1, as stated, fails for a target that does not fit the array: the
    link [a] of [long_link] has an absolute target of 1024 bytes, the
    run succeeds, and the new target is not ["../.."] followed by the
    old one: its last byte is missing. *)
Lemma C1_long_target_is_cut :
  ∃ out s',
    main long_link = (Exited 0 out, s')
    ∧ "a"%string ∈ dirents long_link
    ∧ files long_link !! "a"%string = Some (SymbolicLink long_target)
    ∧ absolute long_target
    ∧ nul_free long_target
    ∧ st_files s' !! "a"%string
      = Some (SymbolicLink ("../.." +:+ str_take 1023 long_target))
    ∧ st_files s' !! "a"%string
      ≠ Some (SymbolicLink ("../.." +:+ long_target)).
Proof.
  exists (summary (snd (main long_link))), (snd (main long_link)).
  split; [by vm_compute|]. split; [apply list_elem_of_here|].
  split; [by vm_compute|]. split; [by vm_compute|].
  split; [unfold nul_free, long_target;
          rewrite list_ascii_of_string_of_list_ascii;
          constructor; [done|]; apply Forall_forall;
          intros c Hc%list_elem_of_In%repeat_spec; by subst|].
  split; [by vm_compute|].
  intros H.
  apply (f_equal (λ o, match o with
                       | Some (SymbolicLink t) => String.length t
                       | _ => 0
                       end)) in H.
  vm_compute in H. discriminate.
Qed.

(** C1, amended: a directory entry that is a symbolic link whose target
    starts with a slash and is at most 1023 bytes long is, after one
    successful run, a link of the same name to ["../.."] followed by the
    old target, byte for byte. *)
Theorem C1_rewrite_verbatim w out s' name t :
  main w = (Exited 0 out, s') →
  name ∈ dirents w →
  files w !! name = Some (SymbolicLink t) →
  absolute t →
  nul_free t →
  String.length t ≤ 1023 →
  st_files s' !! name = Some (SymbolicLink ("../.." +:+ t)).
Proof.
  intros Hmain Hin Hn Habs Hnf Hlen.
  rewrite (rewrite_cut w out s' name t) by done.
  by rewrite str_take_all.
Qed.

Lemma C1_rewrite_verbatim_witness :
  st_files (snd (main scenario)) !! "a"%string
  = Some (SymbolicLink "../../opt/x/y").
Proof.
  apply (C1_rewrite_verbatim scenario (summary (snd (main scenario)))
           (snd (main scenario)) "a" "/opt/x/y").
  - vm_compute. reflexivity.
  - vm_compute. apply list_elem_of_further, list_elem_of_further, list_elem_of_here.
  - vm_compute. reflexivity.
  - reflexivity.
  - unfold nul_free. simpl. repeat (constructor; [discriminate|]). constructor.
  - simpl. lia.
Defined.

(** ** The counters *)

Lemma int_wrap_range z : (- 2 ^ 31 ≤ int_wrap z < 2 ^ 31)%Z.
Proof.
  unfold int_wrap.
  pose proof (Z.mod_pos_bound (z + 2 ^ 31) (2 ^ 32) ltac:(lia)). lia.
Qed.

Lemma int_wrap_in_range z : (- 2 ^ 31 ≤ z < 2 ^ 31)%Z → int_wrap z = z.
Proof. intros Hz. unfold int_wrap. rewrite Z.mod_small; lia. Qed.

Lemma int_wrap_add a b : int_wrap (int_wrap a + b) = int_wrap (a + b).
Proof.
  unfold int_wrap. f_equal.
  replace ((a + 2 ^ 31) `mod` 2 ^ 32 - 2 ^ 31 + b + 2 ^ 31)%Z
    with ((a + 2 ^ 31) `mod` 2 ^ 32 + b)%Z by lia.
  rewrite Zplus_mod_idemp_l. f_equal. lia.
Qed.

(** The loop over a name returned [n] times that holds a relative link:
    every round counts it in [links], which wraps around. *)
Lemma scan_repeat_relative w name c rest n : ∀ s,
  injected (faults w) SYS_readlink name = None →
  st_files s !! name = Some (SymbolicLink (String c rest)) →
  c ≠ SLASH →
  (- 2 ^ 31 ≤ links s < 2 ^ 31)%Z →
  ∃ s', scan w s (repeat name n) = Continue s'
        ∧ fixed s' = fixed s
        ∧ links s' = int_wrap (links s + Z.of_nat n).
Proof.
  induction n as [|n IH]; intros s Hi Hn Hc Hr.
  - exists s. repeat split; try done.
    by rewrite Z.add_0_r, int_wrap_in_range.
  - destruct (loop_body_relative w s name c rest Hn Hc) as (Hf & Hx & _ & Hl).
    destruct (Hl Hi) as (s1 & Hb & Hl1). rewrite Hb in Hf, Hx. simpl in Hf, Hx.
    destruct (IH s1) as (s' & Hscan & Hx' & Hl'); try done.
    + by rewrite Hf.
    + rewrite Hl1. apply int_wrap_range.
    + exists s'. cbn [repeat scan]. rewrite Hb. split; [done|].
      split; [congruence|].
      rewrite Hl', Hl1. unfold int_incr. rewrite int_wrap_add. f_equal. lia.
Qed.

(** C2, as stated, fails when the directory has more entries than an
    [int] counts: in [many_links], where [readdir] returns a relative
    link 2^31 times, the run ends with [links] at -2^31, below [fixed],
    which is 0. *)
Lemma C2_links_wrap :
  length (dirents many_links) = Z.to_nat 2147483648
  ∧ fixed (snd (main many_links)) = 0%Z
  ∧ links (snd (main many_links)) = (-2147483648)%Z
  ∧ ¬ (0 ≤ fixed (snd (main many_links)) ≤ links (snd (main many_links)))%Z.
Proof.
  assert (fixed (snd (main many_links)) = 0%Z
          ∧ links (snd (main many_links)) = (-2147483648)%Z) as [Hx Hl].
  { rewrite main_state by (by exists (dirents many_links)).
    destruct (scan_repeat_relative many_links "b" "."%char "./c"
                (Z.to_nat 2147483648) (initial many_links))
      as (s' & Hscan & Hx & Hl).
    - reflexivity.
    - reflexivity.
    - discriminate.
    - split; [done|reflexivity].
    - change (dirents many_links)
        with (repeat "b"%string (Z.to_nat 2147483648)).
      rewrite Hscan. cbn [state_of]. rewrite Hx, Hl. split; [reflexivity|].
      change (links (initial many_links)) with 0%Z.
      rewrite Z2Nat.id by done. reflexivity. }
  split; [exact (repeat_length _ _)|].
  split; [exact Hx|]. split; [exact Hl|].
  rewrite Hx, Hl. intros [_ H]. exact (H eq_refl).
Qed.

(** C2, amended: in a directory of at most [INT_MAX] entries, at every
    point of the scan (after any number [seen] of the entries, whether
    the last round went on or stopped the run) and at the end of the
    run, [0 <= fixed <= links <= number of entries read]; [links] is the
    number of [readlink] calls that returned a target, [fixed] the
    number of [symlink] calls that made a new link; an entry that is no
    symbolic link changes neither counter, and a link whose target is
    not empty and does not start with a slash does not change [fixed]. *)
Theorem C2_counters w :
  (Z.of_nat (length (dirents w)) ≤ INT_MAX)%Z →
  (∀ seen rest, dirents w = seen ++ rest →
     let s := state_of (scan w (initial w) seen) in
     (0 ≤ fixed s ≤ links s)%Z
     ∧ (links s ≤ Z.of_nat (length seen))%Z
     ∧ links s = Z.of_nat (count_events read_as_link (trace s))
     ∧ fixed s = Z.of_nat (count_events link_made (trace s)))
  ∧ (let s := snd (main w) in
     (0 ≤ fixed s ≤ links s)%Z
     ∧ (links s ≤ Z.of_nat (length (dirents w)))%Z)
  ∧ (∀ s d_name,
       (∀ t, st_files s !! d_name ≠ Some (SymbolicLink t)) →
       links (state_of (loop_body w s d_name)) = links s
       ∧ fixed (state_of (loop_body w s d_name)) = fixed s)
  ∧ (∀ s d_name c rest,
       st_files s !! d_name = Some (SymbolicLink (String c rest)) →
       c ≠ SLASH →
       fixed (state_of (loop_body w s d_name)) = fixed s).
Proof.
  intros Hmax.
  assert (Hpoint : ∀ seen rest, dirents w = seen ++ rest →
            counted (state_of (scan w (initial w) seen)) (length seen)).
  { intros seen rest Hd.
    apply (scan_counted w seen (initial w) 0 (counted_initial w)).
    rewrite Hd, length_app in Hmax. lia. }
  split; [|split; [|split]].
  - intros seen rest Hd s. destruct (Hpoint seen rest Hd) as (? & ? & ? & ?).
    subst s. repeat split; lia.
  - destruct (sys_opendir w) as [names|] eqn:Ho.
    + rewrite main_state by eauto.
      destruct (Hpoint (dirents w) [] (eq_sym (app_nil_r _))) as (? & ? & ? & ?).
      cbv zeta. repeat split; lia.
    + unfold main. rewrite Ho. unfold initial. cbn. lia.
  - intros s d Hno. by destruct (loop_body_not_a_link w s d Hno) as (_ & ? & ?).
  - intros s d c rest Hn Hc.
    by destruct (loop_body_relative w s d c rest Hn Hc) as (_ & ? & _).
Qed.

Lemma C2_counters_witness :
  let s := snd (main scenario) in
  (0 ≤ fixed s ≤ links s)%Z ∧ (links s ≤ Z.of_nat (length (dirents scenario)))%Z.
Proof.
  destruct (C2_counters scenario) as (_ & H & _).
  - vm_compute. discriminate.
  - exact H.
Defined.

(** ** Failures *)

(** How a round treats the failure of each of its three calls. *)
Lemma error_handling w s d_name :
  (sys_readlink w (st_files s) d_name (sizeof_target - 1) = inl EINVAL →
   ∃ s', loop_body w s d_name = Continue s'
         ∧ st_files s' = st_files s ∧ links s' = links s ∧ fixed s' = fixed s)
  ∧ (∀ e, e ≠ EINVAL →
     sys_readlink w (st_files s) d_name (sizeof_target - 1) = inl e →
     ∃ s', loop_body w s d_name
           = Abort (Err EX_OSERR ("error in readlink('" +:+ d_name +:+ "')") e) s'
           ∧ st_files s' = st_files s)
  ∧ (∀ bytes e,
     sys_readlink w (st_files s) d_name (sizeof_target - 1) = inr bytes →
     store bytes (target s) !! 0 = Some SLASH →
     sys_unlink w (st_files s) d_name = inl e →
     ∃ s', loop_body w s d_name
           = Abort (Err EX_OSERR "Failed to remove old link" e) s'
           ∧ st_files s' = st_files s)
  ∧ (∀ bytes fs1 e,
     sys_readlink w (st_files s) d_name (sizeof_target - 1) = inr bytes →
     store bytes (target s) !! 0 = Some SLASH →
     sys_unlink w (st_files s) d_name = inr fs1 →
     sys_symlink w fs1
       ("../.." +:+ c_str (<[length bytes := NUL]> (store bytes (target s))))
       d_name = inl e →
     ∃ s', loop_body w s d_name
           = Abort (Err EX_OSERR "Failed to create link" e) s'
           ∧ st_files s' = delete d_name (st_files s)).
Proof.
  split; [|split; [|split]].
  - intros Hrl. unfold loop_body. cbv zeta. rewrite Hrl.
    rewrite decide_True by done. eauto.
  - intros e He Hrl. unfold loop_body. cbv zeta. rewrite Hrl.
    rewrite decide_False by done. eauto.
  - intros bytes e Hrl H0 Hul. unfold loop_body. cbv zeta. rewrite Hrl.
    rewrite decide_True by done. rewrite Hul. eauto.
  - intros bytes fs1 e Hrl H0 Hul Hsl. unfold loop_body. cbv zeta. rewrite Hrl.
    rewrite decide_True by done. rewrite Hul, Hsl.
    apply sys_unlink_inr in Hul as ->. eauto.
Qed.

(** A run that a round stops ends as that round says: with the status
    [EX_OSERR], whatever names come after, and without the summary. *)
Lemma abort_is_final w seen d_name rest s1 o s2 :
  is_Some (sys_opendir w) →
  dirents w = seen ++ d_name :: rest →
  scan w (initial w) seen = Continue s1 →
  loop_body w s1 d_name = Abort o s2 →
  main w = (o, s2)
  ∧ (∃ msg e, o = Err EX_OSERR msg e)
  ∧ (∀ status out, o ≠ Exited status out).
Proof.
  intros [names Ho] Hd Hscan Hb.
  assert (main w = (o, s2)) as Hm.
  { unfold main. rewrite Ho. apply sys_opendir_Some in Ho as ->.
    by rewrite Hd, (scan_stops w _ seen d_name rest s1 o s2). }
  apply loop_body_Abort in Hb as (e & [-> | [-> | ->]]); split; eauto.
Qed.

(** C3, at a directory that may not be written: the failure of [unlink]
    on the link [a] and the failure of [unlink] on the link [b] end the
    run in the same way, status and message; so does the failure of
    [symlink].  The message of a failed [readlink] names the entry, the
    messages of a failed [unlink] and of a failed [symlink] do not. *)
Theorem C3_entry_not_named :
  fst (main (unlink_denied "a"))
    = Err EX_OSERR "Failed to remove old link" EACCES
  ∧ fst (main (unlink_denied "b"))
    = Err EX_OSERR "Failed to remove old link" EACCES
  ∧ fst (main (symlink_denied "a"))
    = Err EX_OSERR "Failed to create link" ENOSPC
  ∧ fst (main (symlink_denied "b"))
    = Err EX_OSERR "Failed to create link" ENOSPC
  ∧ fst (main (abort_after_fix "/opt/x/y"))
    = Err EX_OSERR "error in readlink('b')" EACCES.
Proof. repeat split; by vm_compute. Qed.

(** A directory of regular files and directories only, read without
    failure: the run ends with the usage error, [links] at zero and the
    directory as it was. *)
Lemma zero_link_directory w :
  is_Some (sys_opendir w) →
  (∀ name, name ∈ dirents w →
     (files w !! name = Some RegularFile ∨ files w !! name = Some SubDirectory)
     ∧ injected (faults w) SYS_readlink name = None) →
  ∃ s, main w = (Errx EX_USAGE ("no symbolic links in " +:+ percent_s (sys_getwd w)), s)
       ∧ links s = 0%Z ∧ fixed s = 0%Z ∧ st_files s = files w.
Proof.
  intros [names Ho] Hall.
  assert (Hscan : ∀ names s,
            (∀ name, name ∈ names →
               (st_files s !! name = Some RegularFile
                ∨ st_files s !! name = Some SubDirectory)
               ∧ injected (faults w) SYS_readlink name = None) →
            ∃ s', scan w s names = Continue s' ∧ st_files s' = st_files s
                  ∧ links s' = links s ∧ fixed s' = fixed s).
  { clear. induction names as [|d rest IH]; intros s Hall; simpl; [eauto|].
    destruct (Hall d (list_elem_of_here _ _)) as [Hd Hi].
    destruct (error_handling w s d) as ((s1 & -> & Hf & Hl & Hx) & _).
    { unfold sys_readlink. rewrite Hi. by destruct Hd as [-> | ->]. }
    destruct (IH s1) as (s' & -> & ? & ? & ?).
    { intros name Hin. rewrite Hf. by apply Hall, list_elem_of_further. }
    exists s'. repeat split; congruence. }
  destruct (Hscan (dirents w) (initial w) Hall) as (s & Hs & Hf & Hl & Hx).
  exists s. unfold main. rewrite Ho. apply sys_opendir_Some in Ho as ->.
  rewrite Hs, Hf, Hl, Hx. unfold initial. cbn. by rewrite decide_True.
Qed.

(** A run that opens the directory and reads it to the end with
    [links] at zero ends through [errx] with the status [EX_USAGE],
    which is neither the status [EX_OSERR] nor zero; the message ends in
    what [%s] makes of the result of [getwd(NULL)], which is the path of
    the working directory when the C library allocates the buffer. *)
Lemma usage_error_outcome w s :
  is_Some (sys_opendir w) →
  scan w (initial w) (dirents w) = Continue s →
  links s = 0%Z →
  main w = (Errx EX_USAGE ("no symbolic links in " +:+ percent_s (sys_getwd w)), s)
  ∧ EX_USAGE ≠ EX_OSERR
  ∧ EX_USAGE ≠ 0%Z
  ∧ (getwd_allocates w = true → percent_s (sys_getwd w) = cwd w).
Proof.
  intros [names Ho] Hscan Hl. split; [|split; [done|split; [done|]]].
  - unfold main. rewrite Ho. apply sys_opendir_Some in Ho as ->.
    rewrite Hscan. by rewrite decide_True.
  - unfold sys_getwd. by intros ->.
Qed.

(** C4, at a directory of regular files and directories on a host with
    the GNU C library: the run ends with the usage status, which is not
    the status [EX_OSERR]; [getwd(NULL)] returns NULL there, and the
    message ends in [(null)], not in the path of the working directory.
    The same directory where the C library allocates the buffer gives
    the path. *)
Theorem C4_message_without_path :
  cwd no_links_gnu = "/rootfs/usr/lib"%string
  ∧ sys_getwd no_links_gnu = None
  ∧ links (snd (main no_links_gnu)) = 0%Z
  ∧ fst (main no_links_gnu) = Errx EX_USAGE "no symbolic links in (null)"
  ∧ EX_USAGE ≠ EX_OSERR
  ∧ fst (main no_links) = Errx EX_USAGE "no symbolic links in /rootfs/usr/lib".
Proof. repeat split; by vm_compute. Qed.

(** C5, at the directory of the end-to-end scenario: the run succeeds
    with status 0 and writes [fixed 1/2 symbolic links] followed by a
    backslash and the letter n; no line terminator follows. *)
Theorem C5_summary_not_terminated :
  fst (main scenario)
    = Exited 0 ("fixed 1/2 symbolic links" +:+ backslash_n)
  ∧ fst (main scenario) ≠ Exited 0 ("fixed 1/2 symbolic links" +:+ LF).
Proof. split; [by vm_compute|]. vm_compute. discriminate. Qed.

(** C9: when [opendir] fails the program goes on to [readdir] with the
    null stream: the outcome is none of the three clean ones, and the
    directory is as it was; when [opendir] succeeds the outcome is one
    of the three. *)
Theorem C9_opendir_unchecked w :
  (sys_opendir w = None →
   fst (main w) = Undefined
   ∧ ¬ clean (fst (main w))
   ∧ st_files (snd (main w)) = files w)
  ∧ (is_Some (sys_opendir w) → clean (fst (main w))).
Proof.
  split.
  - intros Ho. unfold main. rewrite Ho. cbn.
    repeat split. intros [(? & ?)|[(? & ?)|(? & ? & ?)]]; discriminate.
  - intros [names Ho]. unfold main. rewrite Ho.
    destruct (scan _ _ _) as [s|o s] eqn:Hscan.
    + case_decide; cbn; [right; left | left]; eauto.
    + cbn. apply scan_Abort in Hscan as (? & ? & ? & ? & _ & _ & Hb).
      apply loop_body_Abort in Hb as (e & [-> | [-> | ->]]); right; right; eauto.
Qed.

Lemma C9_opendir_unchecked_witness :
  fst (main unreadable) = Undefined
  ∧ ¬ clean (fst (main unreadable))
  ∧ st_files (snd (main unreadable)) = files unreadable.
Proof.
  apply (C9_opendir_unchecked unreadable).
  vm_compute. reflexivity.
Defined.

(** ** Links that are not absolute *)

(** The calls of a round are calls on its own name. *)
Lemma loop_body_trace w s d_name :
  ∃ evs, trace (state_of (loop_body w s d_name)) = trace s ++ evs
         ∧ Forall (λ ev, ∀ name, modifies name ev → name = d_name) evs.
Proof.
  body_cases; rewrite <- ?app_assoc; eexists; (split; [reflexivity|]);
    repeat constructor; simpl; try done; congruence.
Qed.

(** A link whose target is not empty and does not start with a slash is
    the same after the run, however the run ends, and no [unlink] and no
    [symlink] was called on its name. *)
Lemma relative_link_untouched w name c rest :
  files w !! name = Some (SymbolicLink (String c rest)) →
  c ≠ SLASH →
  let s' := snd (main w) in
  st_files s' !! name = Some (SymbolicLink (String c rest))
  ∧ Forall (λ ev, ¬ modifies name ev) (trace s').
Proof.
  intros Hn Hc.
  destruct (sys_opendir w) as [names|] eqn:Ho.
  2:{ unfold main. rewrite Ho. unfold initial. cbn. by split. }
  cbv zeta. rewrite main_state by eauto.
  apply (scan_invariant w
    (λ s, st_files s !! name = Some (SymbolicLink (String c rest))
          ∧ Forall (λ ev, ¬ modifies name ev) (trace s))).
  - intros s d [Hs Htr]. destruct (decide (name = d)) as [<-|Hne].
    + destruct (loop_body_relative w s name c rest Hs Hc)
        as (-> & _ & (res & ->) & _).
      split; [done|]. apply Forall_app. split; [done|].
      apply Forall_singleton. by intros [].
    + rewrite loop_body_frame by done. split; [done|].
      destruct (loop_body_trace w s d) as (evs & -> & Hevs).
      apply Forall_app. split; [done|].
      eapply Forall_impl; [exact Hevs|]. intros ev Hev Hm. by apply Hne, Hev.
  - unfold initial. cbn. by split.
Qed.

(** A link with an empty target: [readlink] stores nothing, and the
    round goes by the byte the array happens to start with.  A slash
    there, and the link is made again with the target ["../.."]; any
    other byte, and the link is left alone. *)
Lemma empty_target_round w s d_name :
  st_files s !! d_name = Some (SymbolicLink "") →
  injected (faults w) SYS_readlink d_name = None →
  injected (faults w) SYS_unlink d_name = None →
  injected (faults w) SYS_symlink d_name = None →
  ∃ s', loop_body w s d_name = Continue s'
        ∧ links s' = int_incr (links s)
        ∧ (target s !! 0 = Some SLASH →
           st_files s' = <[d_name := SymbolicLink "../.."]> (st_files s)
           ∧ fixed s' = int_incr (fixed s))
        ∧ (target s !! 0 ≠ Some SLASH →
           st_files s' = st_files s ∧ fixed s' = fixed s).
Proof.
  intros Hn Hrl Hul Hsl. unfold loop_body. cbv zeta.
  unfold sys_readlink. rewrite Hrl, Hn. cbn [list_ascii_of_string take length].
  rewrite store_nil. case_decide as H0.
  - unfold sys_unlink. rewrite Hul, Hn.
    unfold sys_symlink. rewrite Hsl, lookup_delete_eq.
    eexists. split; [reflexivity|]. cbn. split; [done|]. split; [|done].
    intros _. split; [|done]. rewrite insert_delete_eq.
    destruct (target s) as [|c rest]; [done|]. injection H0 as ->.
    cbn. by destruct (decide (NUL = NUL)).
  - eexists. split; [reflexivity|]. cbn. by repeat split.
Qed.

(** C6, at a directory where a link with an empty target comes after an
    absolute link: the target of [e] does not start with a slash, yet
    the run removes [e], makes it again with the target ["../.."] and
    counts it in [fixed].  The first byte of the array is read though
    [readlink] stored nothing: it is what the round before left. *)
Theorem C6_empty_target_rewritten :
  files empty_after_absolute !! "e"%string = Some (SymbolicLink "")
  ∧ ¬ absolute ""
  ∧ fst (main empty_after_absolute)
    = Exited 0 ("fixed 2/2 symbolic links" +:+ backslash_n)
  ∧ st_files (snd (main empty_after_absolute)) !! "e"%string
    = Some (SymbolicLink "../..")
  ∧ trace (snd (main empty_after_absolute))
    = [EvReadlink "a" (inr (list_ascii_of_string "/opt/x/y"));
       EvUnlink "a" None;
       EvSymlink "../../opt/x/y" "a" None;
       EvReadlink "e" (inr []);
       EvUnlink "e" None;
       EvSymlink "../.." "e" None].
Proof.
  split; [by vm_compute|]. split; [by intros []|]. repeat split; by vm_compute.
Qed.

(** ** A second run *)

(** When no link of the directory has an empty target, a run over what
    a successful run left fixes nothing. *)
Lemma second_run_fixes_nothing w1 w2 out s1 :
  main w1 = (Exited 0 out, s1) →
  files w2 = st_files s1 →
  dirents w2 ⊆ dirents w1 →
  (∀ name t, files w1 !! name = Some (SymbolicLink t) → t ≠ EmptyString) →
  fixed (snd (main w2)) = 0%Z.
Proof.
  intros (Hscan & _)%main_Exited Hfs Hsub Hne.
  destruct (sys_opendir w2) as [names|] eqn:Ho.
  2:{ unfold main. rewrite Ho. unfold initial. by cbn. }
  rewrite main_state by eauto.
  destruct (scan_nothing_to_fix w2 (dirents w2) (initial w2)) as [_ ->].
  2:{ unfold initial. by cbn. }
  intros name t Hin. unfold initial. cbn. rewrite Hfs. intros Hn. split.
  - pose proof (scan_keeps_not_empty w1 (dirents w1) (initial w1) name) as Hk.
    rewrite Hscan in Hk. apply (Hk (Hne name) t Hn).
  - apply (scan_settles w1 (dirents w1) (initial w1) s1
             (length_initial w1) Hscan name t); [by apply Hsub|done].
Qed.

(** C7, at a directory that holds one link with an empty target: the
    first run succeeds with [fixed] at zero and changes nothing; a
    second run over the same directory, in a process whose memory under
    [target] starts with a slash, rewrites the link and ends with
    [fixed] at one. *)
Theorem C7_second_run_fixes_empty_link :
  fst (main (empty_alone NUL))
    = Exited 0 ("fixed 0/1 symbolic links" +:+ backslash_n)
  ∧ files (again (empty_alone NUL) SLASH) = files (empty_alone NUL)
  ∧ fst (main (again (empty_alone NUL) SLASH))
    = Exited 0 ("fixed 1/1 symbolic links" +:+ backslash_n)
  ∧ fixed (snd (main (again (empty_alone NUL) SLASH))) = 1%Z.
Proof. repeat split; by vm_compute. Qed.

(** ** A run that stops *)

(** C10, as stated, fails for a target that does not fit the array: in
    [abort_after_fix long_target] the link [a] is rewritten, the run
    then stops at [b], and [a] is left with a target that is not
    ["../.."] followed by its old target. *)
Lemma C10_long_target_left_cut :
  fst (main (abort_after_fix long_target))
    = Err EX_OSERR "error in readlink('b')" EACCES
  ∧ files (abort_after_fix long_target) !! "a"%string
    = Some (SymbolicLink long_target)
  ∧ absolute long_target
  ∧ st_files (snd (main (abort_after_fix long_target))) !! "a"%string
    = Some (SymbolicLink ("../.." +:+ str_take 1023 long_target))
  ∧ st_files (snd (main (abort_after_fix long_target))) !! "a"%string
    ≠ Some (SymbolicLink ("../.." +:+ long_target)).
Proof.
  split; [by vm_compute|]. split; [by vm_compute|]. split; [by vm_compute|].
  split; [by vm_compute|].
  intros H.
  apply (f_equal (λ o, match o with
                       | Some (SymbolicLink t) => String.length t
                       | _ => 0
                       end)) in H.
  vm_compute in H. discriminate.
Qed.

(** C10, amended: when the run stops at some entry, a link with an
    absolute target of at most 1023 bytes that was rewritten at an
    earlier position still holds ["../.."] followed by its old target:
    the directory differs from what it was, the run ends with the
    outcome of the failed round, and no summary is written. *)
Theorem C10_no_rollback w seen d_name rest s1 o s2 name t :
  is_Some (sys_opendir w) →
  dirents w = seen ++ d_name :: rest →
  scan w (initial w) seen = Continue s1 →
  loop_body w s1 d_name = Abort o s2 →
  name ∈ seen →
  files w !! name = Some (SymbolicLink t) →
  absolute t →
  nul_free t →
  String.length t ≤ 1023 →
  main w = (o, s2)
  ∧ st_files s2 !! name = Some (SymbolicLink ("../.." +:+ t))
  ∧ st_files s2 !! name ≠ files w !! name
  ∧ (∀ status out, o ≠ Exited status out).
Proof.
  intros Ho Hd Hscan Hb Hin Hn Habs Hnf Hlen.
  destruct (abort_is_final w seen d_name rest s1 o s2) as (Hm & _ & Hex);
    try done.
  assert (st_files s2 !! name = Some (SymbolicLink ("../.." +:+ t))) as Hfix.
  { destruct (scan_rewrites w seen (initial w) s1 name t)
      as (x & Hx & Hxt); auto using length_initial.
    rewrite (Hxt Hnf), str_take_all in Hx by done.
    pose proof (scan_keeps_relative w s1 [d_name] name "."%char
                  ("./.." +:+ t) Hx ltac:(done)) as Hk.
    simpl in Hk. by rewrite Hb in Hk. }
  repeat split; try done.
  rewrite Hfix, Hn. intros [= Heq].
  destruct t as [|c t']; [done|]. simpl in Habs. subst c. discriminate.
Qed.

Lemma C10_no_rollback_witness :
  st_files (snd (main (abort_after_fix "/opt/x/y"))) !! "a"%string
  = Some (SymbolicLink "../../opt/x/y").
Proof.
  pose (w := abort_after_fix "/opt/x/y").
  destruct (C10_no_rollback w ["a"%string] "b" []
              (state_of (scan w (initial w) ["a"%string]))
              (fst (main w)) (snd (main w)) "a" "/opt/x/y")
    as (_ & H & _).
  - vm_compute. eauto.
  - vm_compute. reflexivity.
  - vm_compute. reflexivity.
  - vm_compute. reflexivity.
  - apply list_elem_of_here.
  - vm_compute. reflexivity.
  - reflexivity.
  - unfold nul_free. simpl. repeat (constructor; [discriminate|]). constructor.
  - simpl. lia.
  - exact H.
Defined.

(** ** The arguments of [cheridis] *)

Lemma length_8 (arg : string) :
  String.length arg = 8 →
  ∃ c1 c2 c3 c4 c5 c6 c7 c8,
    arg = String c1 (String c2 (String c3 (String c4
            (String c5 (String c6 (String c7 (String c8 EmptyString))))))).
Proof.
  intros H.
  do 8 (destruct arg as [|? arg]; [discriminate H|]).
  destruct arg; [|discriminate H]. by repeat eexists.
Qed.

(** C8: an argument of 8 characters adds the four tokens of its four
    pairs, in order; an argument of 10 characters that starts with
    ["0x"] adds the four tokens of the 8 characters after the prefix;
    any other argument adds nothing; the program does this for each
    argument after its name, in order. *)
Theorem C8_arguments (arg : string) :
  (String.length arg = 8 → Cheridis.instruction arg = tokens_of arg)
  ∧ (String.length arg = 10 → String.prefix "0x" arg = true →
     Cheridis.instruction arg = tokens_of (substring 2 8 arg))
  ∧ (String.length arg = 10 → String.prefix "0x" arg = false →
     Cheridis.instruction arg = EmptyString)
  ∧ (String.length arg ≠ 8 → String.length arg ≠ 10 →
     Cheridis.instruction arg = EmptyString)
  ∧ (∀ prog args,
     Cheridis.main (prog :: arg :: args)
     = Cheridis.instruction arg +:+ Cheridis.main (prog :: args)).
Proof.
  repeat split.
  - intros (c1 & c2 & c3 & c4 & c5 & c6 & c7 & c8 & ->)%length_8. reflexivity.
  - intros Hlen Hp.
    do 2 (destruct arg as [|? arg]; [discriminate Hlen|]).
    injection Hlen as Hlen.
    apply length_8 in Hlen as (c1 & c2 & c3 & c4 & c5 & c6 & c7 & c8 & ->).
    cbn [String.prefix] in Hp.
    destruct (ascii_dec "0" a) as [<-|]; [|discriminate Hp].
    destruct (ascii_dec "x" a0) as [<-|]; [|discriminate Hp].
    reflexivity.
  - intros Hlen Hp.
    do 2 (destruct arg as [|? arg]; [discriminate Hlen|]).
    unfold Cheridis.instruction. cbv zeta. rewrite Hlen. simpl Nat.eqb. cbv iota.
    rewrite decide_True; [done|]. cbn [String.prefix String.get] in *.
    destruct (ascii_dec "0" a) as [<-|]; [|left; congruence].
    destruct (ascii_dec "x" a0) as [<-|]; [|right; congruence].
    destruct arg; discriminate Hp.
  - intros H8 H10. unfold Cheridis.instruction. cbv zeta.
    apply Nat.eqb_neq in H8, H10. by rewrite H8, H10.
Qed.

Lemma C8_arguments_witness :
  Cheridis.instruction "deadbeef" = "0xde 0xad 0xbe 0xef "%string
  ∧ Cheridis.instruction "0x12345678" = "0x12 0x34 0x56 0x78 "%string
  ∧ Cheridis.instruction "0y12345678" = EmptyString
  ∧ Cheridis.instruction "123" = EmptyString.
Proof.
  split; [|split; [|split]].
  - destruct (C8_arguments "deadbeef") as (H & _). apply H. reflexivity.
  - destruct (C8_arguments "0x12345678") as (_ & H & _). apply H; reflexivity.
  - destruct (C8_arguments "0y12345678") as (_ & _ & H & _). apply H; reflexivity.
  - destruct (C8_arguments "123") as (_ & _ & _ & H & _). apply H; simpl; lia.
Defined.

(** ** Further properties of [fixlinks] *)

Lemma sys_unlink_inr_Some w fs path fs1 :
  sys_unlink w fs path = inr fs1 → is_Some (fs !! path).
Proof.
  unfold sys_unlink. destruct (injected _ _ _); [done|].
  destruct (fs !! path); [eauto|done].
Qed.

(** A round keeps the set of names, unless it stops at the [symlink]. *)
Lemma loop_body_dom w s d_name :
  (∀ e s', loop_body w s d_name
           ≠ Abort (Err EX_OSERR "Failed to create link" e) s') →
  dom (st_files (state_of (loop_body w s d_name))) = dom (st_files s).
Proof.
  body_cases; intros Hno; try done.
  - by destruct (Hno e _ eq_refl).
  - pose proof (sys_unlink_inr_Some _ _ _ _ Hul) as Hsome.
    apply sys_unlink_inr in Hul as ->. apply sys_symlink_inr in Hsl as ->.
    rewrite insert_delete_eq. by apply dom_insert_lookup_L.
Qed.

(** X1: after a run that ends with the success status, no name that
    [readdir] returned holds a symbolic link with an absolute target. *)
Theorem X1_no_absolute_link_left w out s name t :
  main w = (Exited 0 out, s) →
  name ∈ dirents w →
  st_files s !! name = Some (SymbolicLink t) →
  ¬ absolute t.
Proof.
  intros (Hscan & _)%main_Exited Hin Hn.
  by apply (scan_settles w (dirents w) (initial w) s
              (length_initial w) Hscan name t).
Qed.

Lemma X1_no_absolute_link_left_witness : ¬ absolute "../../opt/x/y".
Proof.
  apply (X1_no_absolute_link_left scenario (summary (snd (main scenario)))
           (snd (main scenario)) "a").
  - vm_compute. reflexivity.
  - vm_compute. apply list_elem_of_further, list_elem_of_further, list_elem_of_here.
  - vm_compute. reflexivity.
Defined.

(** The loop leaves alone a name that is not among those it goes
    through, and a name that is no symbolic link. *)
Lemma scan_leaves_others w name names : ∀ s,
  name ∉ names ∨ (∀ t, st_files s !! name ≠ Some (SymbolicLink t)) →
  Forall (λ ev, ¬ modifies name ev) (trace s) →
  st_files (state_of (scan w s names)) !! name = st_files s !! name
  ∧ Forall (λ ev, ¬ modifies name ev) (trace (state_of (scan w s names))).
Proof.
  induction names as [|d rest IH]; intros s Hname Htr; simpl; [done|].
  assert (st_files (state_of (loop_body w s d)) !! name = st_files s !! name
          ∧ Forall (λ ev, ¬ modifies name ev)
                   (trace (state_of (loop_body w s d)))) as [Hs1 Htr1].
  { destruct (decide (name = d)) as [<-|Hne].
    - destruct Hname as [Hnot|Hno]; [by destruct Hnot; left|].
      destruct (loop_body_not_a_link w s name Hno) as (Hf & _).
      split; [by rewrite Hf|].
      body_cases;
        try (apply sys_readlink_inr in Hrl as (t & Ht & _); by destruct (Hno t));
        apply Forall_app; (split; [done|]); apply Forall_singleton; by intros [].
    - rewrite loop_body_frame by done. split; [done|].
      destruct (loop_body_trace w s d) as (evs & -> & Hevs).
      apply Forall_app. split; [done|].
      eapply Forall_impl; [exact Hevs|]. intros ev Hev Hm. by apply Hne, Hev. }
  destruct (loop_body w s d) as [s1|o s1]; simpl in *; [|done].
  rewrite <- Hs1. apply IH; [|done].
  destruct Hname as [Hnot|Hno]; [left|right].
  - intros Hin. apply Hnot. by right.
  - intros t. rewrite Hs1. apply Hno.
Qed.

(** X2: a name that [readdir] does not return, and a name that is no
    symbolic link, is the same after the run as before, however the run
    ends, and the run calls neither [unlink] nor [symlink] on it. *)
Theorem X2_others_untouched w name :
  name ∉ dirents w ∨ (∀ t, files w !! name ≠ Some (SymbolicLink t)) →
  st_files (snd (main w)) !! name = files w !! name
  ∧ Forall (λ ev, ¬ modifies name ev) (trace (snd (main w))).
Proof.
  intros Hname.
  destruct (sys_opendir w) as [names|] eqn:Ho.
  2:{ unfold main. rewrite Ho. unfold initial. cbn. by split. }
  rewrite main_state by eauto.
  apply (scan_leaves_others w name (dirents w) (initial w)); [done|].
  unfold initial. by cbn.
Qed.

Lemma X2_others_untouched_witness :
  st_files (snd (main scenario)) !! "c"%string = Some RegularFile
  ∧ st_files (snd (main scenario)) !! "elsewhere"%string = None.
Proof.
  split.
  - destruct (X2_others_untouched scenario "c") as [H _]; [|exact H].
    right. intros t. vm_compute. discriminate.
  - destruct (X2_others_untouched scenario "elsewhere") as [H _]; [|exact H].
    left. vm_compute. intros H. repeat (inversion H as [|? ? ? H']; subst; clear H; rename H' into H).
Defined.

Lemma scan_dom w names : ∀ s s',
  scan w s names = Continue s' → dom (st_files s') = dom (st_files s).
Proof.
  induction names as [|d rest IH]; intros s s' Hscan; simpl in Hscan.
  - by injection Hscan as <-.
  - destruct (loop_body w s d) as [s1|o s1] eqn:Hb; [|done].
    rewrite (IH _ _ Hscan).
    pose proof (loop_body_dom w s d) as Hd. rewrite Hb in Hd. by apply Hd.
Qed.

(** X3: unless the run stops at a [symlink] that fails, the directory
    has the same names after the run as before: a link that is
    rewritten keeps its name, and nothing is added. *)
Theorem X3_names_kept w o s :
  main w = (o, s) →
  (∀ e, o ≠ Err EX_OSERR "Failed to create link" e) →
  dom (st_files s) = dom (files w).
Proof.
  unfold main. destruct (sys_opendir w) as [names|] eqn:Ho.
  2:{ by intros [= <- <-]. }
  destruct (scan w (initial w) names) as [s1|o1 s1] eqn:Hscan.
  - intros Hm _. apply scan_dom in Hscan.
    by case_decide; injection Hm as <- <-.
  - intros [= -> ->] Hno.
    apply scan_Abort in Hscan as (seen & d & rest & s0 & _ & Hseen & Hb).
    apply scan_dom in Hseen. change (dom (files w)) with (dom (st_files (initial w))).
    rewrite <- Hseen.
    pose proof (loop_body_dom w s0 d) as Hd. rewrite Hb in Hd. apply Hd.
    intros e s' [= -> _]. by destruct (Hno e).
Qed.

Lemma X3_names_kept_witness :
  dom (st_files (snd (main scenario))) = dom (files scenario).
Proof.
  apply (X3_names_kept scenario (fst (main scenario))).
  - vm_compute. reflexivity.
  - intros e. vm_compute. discriminate.
Defined.

(** X4: a run that stops at some entry leaves the directory as the
    rounds before left it, with one exception: when it stops because
    the new link cannot be made, the entry, which was a symbolic link,
    is gone. *)
Theorem X4_state_at_abort w seen d_name rest s1 o s2 :
  is_Some (sys_opendir w) →
  dirents w = seen ++ d_name :: rest →
  scan w (initial w) seen = Continue s1 →
  loop_body w s1 d_name = Abort o s2 →
  snd (main w) = s2
  ∧ ((∀ e, o ≠ Err EX_OSERR "Failed to create link" e) →
     st_files s2 = st_files s1)
  ∧ (∀ e, o = Err EX_OSERR "Failed to create link" e →
     (∃ t, st_files s1 !! d_name = Some (SymbolicLink t))
     ∧ st_files s2 = delete d_name (st_files s1)
     ∧ st_files s2 !! d_name = None).
Proof.
  intros Ho Hd Hscan Hb.
  destruct (abort_is_final w seen d_name rest s1 o s2) as (-> & _); try done.
  split; [done|]. revert Hb. body_cases; intros [= <- <-]; simpl.
  - split; [done|]. intros ? [=].
  - split; [done|]. intros ? [=].
  - split; [intros Hno; by destruct (Hno e)|]. intros _ _.
    apply sys_readlink_inr in Hrl as (t & Ht & _).
    apply sys_unlink_inr in Hul as ->.
    split; [eauto|]. split; [done|]. apply lookup_delete_eq.
Qed.

Lemma X4_state_at_abort_witness :
  st_files (snd (main (symlink_denied "a"))) !! "a"%string = None
  ∧ st_files (snd (main (unlink_denied "a"))) = files (unlink_denied "a").
Proof.
  split.
  - pose (w := symlink_denied "a").
    destruct (X4_state_at_abort w [] "a" [] (initial w) (fst (main w)) (snd (main w)))
      as (_ & _ & H).
    + vm_compute. eauto.
    + reflexivity.
    + reflexivity.
    + vm_compute. reflexivity.
    + destruct (H ENOSPC) as (_ & _ & Hgone); [by vm_compute|exact Hgone].
  - pose (w := unlink_denied "a").
    destruct (X4_state_at_abort w [] "a" [] (initial w) (fst (main w)) (snd (main w)))
      as (_ & H & _).
    + vm_compute. eauto.
    + reflexivity.
    + reflexivity.
    + vm_compute. reflexivity.
    + apply H. intros e. vm_compute. discriminate.
Defined.

(** With no call refused, a round on a name of the directory goes on. *)
Lemma loop_body_no_fault w s d_name :
  (∀ c path, injected (faults w) c path = None) →
  is_Some (st_files s !! d_name) →
  ∃ s', loop_body w s d_name = Continue s'.
Proof.
  intros Hnf [n Hn]. unfold loop_body. cbv zeta.
  unfold sys_readlink. rewrite Hnf, Hn.
  destruct n as [| |t]; try (rewrite decide_True by done; eauto).
  case_decide; [|eauto].
  unfold sys_unlink. rewrite Hnf, Hn.
  unfold sys_symlink. rewrite Hnf, lookup_delete_eq. eauto.
Qed.

(** X5: when the system refuses no call and every name [readdir]
    returns is in the directory, the run reads the directory to its end
    and ends with the success status or with the usage error, never with
    [EX_OSERR]; the directory keeps its names. *)
Theorem X5_no_fault_no_failure w :
  (∀ c path, injected (faults w) c path = None) →
  (∀ name, name ∈ dirents w → is_Some (files w !! name)) →
  ∃ s, scan w (initial w) (dirents w) = Continue s
       ∧ (main w = (Exited 0 (summary s), s)
          ∨ main w = (Errx EX_USAGE ("no symbolic links in " +:+ percent_s (sys_getwd w)), s))
       ∧ dom (st_files s) = dom (files w).
Proof.
  intros Hnf Hall.
  assert (Hscan : ∀ names s,
            (∀ name, name ∈ names → is_Some (st_files s !! name)) →
            ∃ s', scan w s names = Continue s').
  { clear Hall. induction names as [|d rest IH]; intros s Hall; simpl; [eauto|].
    destruct (loop_body_no_fault w s d Hnf) as (s1 & Hb);
      [apply Hall, list_elem_of_here|].
    rewrite Hb. apply IH. intros name Hin.
    pose proof (loop_body_dom w s d) as Hd. rewrite Hb in Hd. simpl in Hd.
    apply elem_of_dom. rewrite Hd by done.
    apply elem_of_dom, Hall. by right. }
  destruct (Hscan (dirents w) (initial w) Hall) as (s & Hs).
  exists s. split; [done|]. split; [|by apply scan_dom in Hs].
  unfold main, sys_opendir. rewrite Hnf, Hs. case_decide; auto.
Qed.

Lemma X5_no_fault_no_failure_witness :
  main scenario = (Exited 0 (summary (snd (main scenario))), snd (main scenario)).
Proof.
  destruct (X5_no_fault_no_failure scenario) as (s & _ & [H|H] & _).
  - reflexivity.
  - intros name Hin. apply elem_of_dom.
    assert (dom (files scenario)
            = list_to_set (dirents scenario)) as -> by (by vm_compute).
    by apply elem_of_list_to_set.
  - rewrite H. reflexivity.
  - exfalso. revert H. vm_compute. discriminate.
Defined.

(** X6: a name that [readdir] returns and the directory does not have
    stops the run at that name: status [EX_OSERR], the name in the
    message, [ENOENT]; directory and counters stay as the rounds before
    left them. *)
Theorem X6_vanished_entry w seen d_name rest s1 :
  is_Some (sys_opendir w) →
  dirents w = seen ++ d_name :: rest →
  scan w (initial w) seen = Continue s1 →
  st_files s1 !! d_name = None →
  injected (faults w) SYS_readlink d_name = None →
  ∃ s2, main w
        = (Err EX_OSERR ("error in readlink('" +:+ d_name +:+ "')") ENOENT, s2)
        ∧ st_files s2 = st_files s1
        ∧ links s2 = links s1
        ∧ fixed s2 = fixed s1.
Proof.
  intros Ho Hd Hscan Hn Hi.
  eexists. split.
  - eapply abort_is_final; try done.
    unfold loop_body. cbv zeta. unfold sys_readlink. rewrite Hi, Hn.
    by rewrite decide_False.
  - by cbn.
Qed.

Lemma X6_vanished_entry_witness :
  fst (main vanished) = Err EX_OSERR "error in readlink('gone')" ENOENT
  ∧ st_files (snd (main vanished)) !! "a"%string
    = Some (SymbolicLink "../../opt/x/y").
Proof.
  destruct (X6_vanished_entry vanished ["a"%string] "gone" []
              (state_of (scan vanished (initial vanished) ["a"%string])))
    as (s2 & Hm & Hf & _).
  - vm_compute. eauto.
  - reflexivity.
  - vm_compute. reflexivity.
  - vm_compute. reflexivity.
  - reflexivity.
  - rewrite Hm. cbn [fst snd]. rewrite Hf. split; [reflexivity|].
    vm_compute. reflexivity.
Defined.

(** X7: a run that ends with the usage error has changed nothing: the
    directory is as it was, [fixed] is zero, and neither [unlink] nor
    [symlink] was called.  (For a directory whose number of entries
    fits an [int].) *)
Theorem X7_usage_error_read_only w msg s :
  main w = (Errx EX_USAGE msg, s) →
  (Z.of_nat (length (dirents w)) ≤ INT_MAX)%Z →
  st_files s = files w
  ∧ fixed s = 0%Z
  ∧ Forall (λ ev, ∀ name, ¬ modifies name ev) (trace s).
Proof.
  intros Hm Hmax.
  assert (scan w (initial w) (dirents w) = Continue s ∧ links s = 0%Z)
    as [Hscan Hl].
  { revert Hm. unfold main.
    destruct (sys_opendir w) as [names|] eqn:Ho; [|done].
    apply sys_opendir_Some in Ho as ->.
    destruct (scan _ _ _) as [s1|o s1] eqn:Hscan.
    - case_decide; [intros [= _ <-]; done | intros [=]].
    - intros [= -> <-].
      apply scan_Abort in Hscan as (? & ? & ? & ? & _ & _ & Hb).
      apply loop_body_Abort in Hb as (e & [?|[?|?]]); done. }
  pose proof (scan_counted w (dirents w) (initial w) 0 (counted_initial w)
                ltac:(simpl; lia)) as (Hcl & Hcf & Hle & _).
  rewrite Hscan in Hcl, Hcf, Hle. simpl in Hcl, Hcf, Hle.
  assert (count_events read_as_link (trace s) = 0) as Hzero by lia.
  cut (count_events read_as_link (trace s) = 0 →
       st_files s = files w
       ∧ Forall (λ ev, ∀ name, ¬ modifies name ev) (trace s)).
  { intros H. destruct (H Hzero). repeat split; try done. lia. }
  change s with (state_of (Continue s)). rewrite <- Hscan.
  apply (scan_invariant w
           (λ s, count_events read_as_link (trace s) = 0 →
                 st_files s = files w
                 ∧ Forall (λ ev, ∀ name, ¬ modifies name ev) (trace s))).
  - clear. intros s d. body_cases; rewrite ?count_events_app; simpl;
      intros IH Hc; try lia;
      (destruct IH as [Hf Htr]; [lia|]); (split; [done|]);
      apply Forall_app; (split; [done|]); apply Forall_singleton;
      by intros name [].
  - intros _. unfold initial. by cbn.
Qed.

Lemma X7_usage_error_read_only_witness :
  st_files (snd (main no_links)) = files no_links.
Proof.
  destruct (X7_usage_error_read_only no_links
              "no symbolic links in /rootfs/usr/lib" (snd (main no_links)))
    as (H & _).
  - vm_compute. reflexivity.
  - vm_compute. discriminate.
  - exact H.
Defined.

(** *** The array and the calls made *)

Lemma length_append s1 s2 :
  String.length (s1 +:+ s2) = String.length s1 + String.length s2.
Proof.
  induction s1 as [|c s1 IH]; [done|].
  change (S (String.length (s1 +:+ s2)) = S (String.length s1 + String.length s2)).
  by rewrite IH.
Qed.

Lemma c_str_length_le (mem : list ascii) i :
  mem !! i = Some NUL → String.length (c_str mem) ≤ i.
Proof.
  revert i. induction mem as [|c mem IH]; intros i Hi; [done|].
  simpl. destruct (decide (c = NUL)) as [->|Hc]; simpl; [lia|].
  destruct i as [|i]; [by injection Hi|].
  apply IH in Hi. lia.
Qed.

Lemma nul_store w s d_name bytes :
  length (target s) = sizeof_target →
  sys_readlink w (st_files s) d_name (sizeof_target - 1) = inr bytes →
  length bytes < sizeof_target
  ∧ <[length bytes := NUL]> (store bytes (target s)) !! length bytes = Some NUL
  ∧ String.length (c_str (<[length bytes := NUL]> (store bytes (target s))))
    ≤ length bytes.
Proof.
  intros Hlen (t & _ & ->)%sys_readlink_inr.
  assert (length (take (sizeof_target - 1) (list_ascii_of_string t))
          < sizeof_target) as Hlt.
  { rewrite length_take. unfold sizeof_target. lia. }
  split; [done|].
  assert (<[length (take (sizeof_target - 1) (list_ascii_of_string t)) := NUL]>
            (store (take (sizeof_target - 1) (list_ascii_of_string t)) (target s))
          !! length (take (sizeof_target - 1) (list_ascii_of_string t))
          = Some NUL) as Hnul.
  { apply list_lookup_insert_eq. rewrite length_store; lia. }
  split; [done|]. by apply c_str_length_le.
Qed.

(** X8: in every state the scan reaches, the array [target] has its
    1024 bytes, [readlink] returns an index below 1024, and the NUL the
    program stores at that index lands inside the array; the string
    that [%s] then reads from the array is no longer than the index. *)
Theorem X8_nul_store_in_bounds w seen d_name bytes :
  let s := state_of (scan w (initial w) seen) in
  sys_readlink w (st_files s) d_name (sizeof_target - 1) = inr bytes →
  length (target s) = 1024
  ∧ length bytes < 1024
  ∧ <[length bytes := NUL]> (store bytes (target s)) !! length bytes = Some NUL
  ∧ length (<[length bytes := NUL]> (store bytes (target s))) = 1024
  ∧ String.length (c_str (<[length bytes := NUL]> (store bytes (target s))))
    ≤ length bytes.
Proof.
  intros s Hrl.
  pose proof (scan_length w (initial w) seen (length_initial w)) as Hlen.
  fold s in Hlen.
  destruct (nul_store w s d_name bytes Hlen Hrl) as (Hlt & Hnul & Hstr).
  repeat split; try done.
  rewrite length_insert, length_store; [done|]. rewrite Hlen. lia.
Qed.

Lemma X8_nul_store_in_bounds_witness :
  let bytes := list_ascii_of_string "/opt/x/y" in
  let s := state_of (scan scenario (initial scenario) ["."; ".."]%string) in
  <[length bytes := NUL]> (store bytes (target s)) !! length bytes = Some NUL.
Proof.
  intros bytes s.
  destruct (X8_nul_store_in_bounds scenario ["."; ".."]%string "a" bytes)
    as (_ & _ & H & _).
  - vm_compute. reflexivity.
  - exact H.
Defined.

Lemma preceded_app prev (l1 l2 : list event) :
  preceded prev l1 → (∀ q, preceded q l2) → preceded prev (l1 ++ l2).
Proof.
  revert prev. induction l1 as [|ev l1 IH]; intros prev H1 H2; simpl; [done|].
  destruct H1 as [? ?]. split; [done|]. by apply IH.
Qed.

(** The calls of one round, as the rules [preceded] and [goes_up] see
    them. *)
Lemma loop_body_events w s d_name :
  length (target s) = sizeof_target →
  ∃ evs, trace (state_of (loop_body w s d_name)) = trace s ++ evs
         ∧ (∀ q, preceded q evs)
         ∧ Forall goes_up evs.
Proof.
  intros Hlen.
  assert (Hstr : ∀ bytes,
            sys_readlink w (st_files s) d_name (sizeof_target - 1) = inr bytes →
            String.length
              (c_str (<[length bytes := NUL]> (store bytes (target s)))) ≤ 1023).
  { intros bytes Hrl.
    destruct (nul_store w s d_name bytes Hlen Hrl) as (Hlt & _ & Hstr).
    unfold sizeof_target in Hlt. lia. }
  body_cases; rewrite <- ?app_assoc; eexists; (split; [reflexivity|]);
    (split; [intros q; simpl; tauto|]);
    repeat first [apply Forall_nil_2 | apply Forall_cons_2]; try exact I;
    (split; [by eexists|]); specialize (Hstr _ eq_refl);
    rewrite length_append; change (String.length "../..") with 5; lia.
Qed.

(** X9: in any run, every [symlink] call comes right after a successful
    [unlink] of the same name, and the contents it is given start with
    ["../.."] and are at most 1028 bytes long: the program creates no
    entry but in place of a link it has just removed, and never a link
    with an absolute target. *)
Theorem X9_links_made w :
  preceded None (trace (snd (main w)))
  ∧ Forall goes_up (trace (snd (main w))).
Proof.
  destruct (sys_opendir w) as [names|] eqn:Ho.
  2:{ unfold main. rewrite Ho. unfold initial. cbn. by split. }
  rewrite main_state by eauto.
  cut (length (target (state_of (scan w (initial w) (dirents w)))) = sizeof_target
       ∧ preceded None (trace (state_of (scan w (initial w) (dirents w))))
       ∧ Forall goes_up (trace (state_of (scan w (initial w) (dirents w))))).
  { by intros (_ & ? & ?). }
  apply (scan_invariant w
           (λ s, length (target s) = sizeof_target
                 ∧ preceded None (trace s) ∧ Forall goes_up (trace s))).
  - intros s d (Hlen & Hp & Hg).
    split; [by apply loop_body_length|].
    destruct (loop_body_events w s d Hlen) as (evs & -> & Hq & Hu).
    split; [by apply preceded_app|]. apply Forall_app. by split.
  - split; [apply length_initial|]. unfold initial. cbn. by split.
Qed.

(** *** Targets of any length, relative links, a second run *)

Lemma length_string_of_list_ascii (l : list ascii) :
  String.length (string_of_list_ascii l) = length l.
Proof.
  by rewrite <- length_list_ascii_of_string, list_ascii_of_string_of_list_ascii.
Qed.

Lemma nul_free_long_target : nul_free long_target.
Proof.
  unfold nul_free, long_target. rewrite list_ascii_of_string_of_list_ascii.
  constructor; [done|]. apply Forall_forall.
  intros c Hc%list_elem_of_In%repeat_spec. by subst.
Qed.

(** X10: after a successful run a link whose target was absolute holds
    ["../.."] followed by the first 1023 bytes of the old target, whatever
    the length of the old target: the new target has 5 bytes more than the
    old one when that had at most 1023 bytes, and 1028 bytes otherwise. *)
Theorem X10_target_cut w out s name t :
  main w = (Exited 0 out, s) →
  name ∈ dirents w →
  files w !! name = Some (SymbolicLink t) →
  absolute t →
  nul_free t →
  st_files s !! name = Some (SymbolicLink ("../.." +:+ str_take 1023 t))
  ∧ String.length ("../.." +:+ str_take 1023 t)
    = 5 + 1023 `min` String.length t.
Proof.
  intros Hm Hin Hn Habs Hnf. split.
  - by apply (rewrite_cut w out s name t).
  - rewrite length_append. change (String.length "../..") with 5.
    unfold str_take.
    by rewrite length_string_of_list_ascii, length_take,
      length_list_ascii_of_string.
Qed.

Lemma X10_target_cut_witness :
  st_files (snd (main long_link)) !! "a"%string
  = Some (SymbolicLink ("../.." +:+ str_take 1023 long_target)).
Proof.
  destruct (X10_target_cut long_link (summary (snd (main long_link)))
              (snd (main long_link)) "a" long_target) as [H _].
  - vm_compute. reflexivity.
  - apply list_elem_of_here.
  - vm_compute. reflexivity.
  - vm_compute. reflexivity.
  - apply nul_free_long_target.
  - exact H.
Defined.

(** X11: a symbolic link whose target is not empty and does not start
    with a slash is the same after the run as before, however the run
    ends, and the run calls neither [unlink] nor [symlink] on it. *)
Theorem X11_relative_link_kept w name c rest :
  files w !! name = Some (SymbolicLink (String c rest)) →
  c ≠ SLASH →
  st_files (snd (main w)) !! name = Some (SymbolicLink (String c rest))
  ∧ Forall (λ ev, ¬ modifies name ev) (trace (snd (main w))).
Proof. apply relative_link_untouched. Qed.

Lemma X11_relative_link_kept_witness :
  st_files (snd (main scenario)) !! "b"%string = Some (SymbolicLink "../c").
Proof.
  destruct (X11_relative_link_kept scenario "b" "."%char "./c") as [H _].
  - vm_compute. reflexivity.
  - discriminate.
  - exact H.
Defined.

(** X12: when no link of the directory has an empty target, a run over
    what a successful run left changes nothing and ends with [fixed] at
    zero, whatever order [readdir] returns the names in and whatever the
    array [target] starts with. *)
Theorem X12_second_run_changes_nothing w1 w2 out s1 :
  main w1 = (Exited 0 out, s1) →
  files w2 = st_files s1 →
  dirents w2 ⊆ dirents w1 →
  (∀ name t, files w1 !! name = Some (SymbolicLink t) → t ≠ EmptyString) →
  st_files (snd (main w2)) = files w2
  ∧ fixed (snd (main w2)) = 0%Z.
Proof.
  intros (Hscan & _)%main_Exited Hfs Hsub Hne.
  destruct (sys_opendir w2) as [names|] eqn:Ho.
  2:{ unfold main. rewrite Ho. unfold initial. by cbn. }
  rewrite main_state by eauto.
  apply (scan_nothing_to_fix w2 (dirents w2) (initial w2)).
  intros name t Hin. unfold initial. cbn. rewrite Hfs. intros Hn. split.
  - pose proof (scan_keeps_not_empty w1 (dirents w1) (initial w1) name) as Hk.
    rewrite Hscan in Hk. apply (Hk (Hne name) t Hn).
  - apply (scan_settles w1 (dirents w1) (initial w1) s1
             (length_initial w1) Hscan name t); [by apply Hsub|done].
Qed.

Lemma X12_second_run_changes_nothing_witness :
  st_files (snd (main (again scenario SLASH))) = files (again scenario SLASH)
  ∧ fixed (snd (main (again scenario SLASH))) = 0%Z.
Proof.
  apply (X12_second_run_changes_nothing scenario (again scenario SLASH)
           (summary (snd (main scenario))) (snd (main scenario))).
  - vm_compute. reflexivity.
  - reflexivity.
  - intros name Hin. exact Hin.
  - intros name t Hn%elem_of_list_to_map_2 ->.
    repeat (apply elem_of_cons in Hn as [Hn|Hn]; [discriminate Hn|]).
    by apply elem_of_nil in Hn.
Defined.

(** X13: for a link with an empty target [readlink] stores nothing, and
    the round goes by the byte the array already starts with: with a
    slash there the link is removed and made again with the target
    ["../.."] and counted in [fixed]; with any other byte it is left
    alone; either way it is counted in [links]. *)
Theorem X13_empty_link_round w s d_name :
  st_files s !! d_name = Some (SymbolicLink "") →
  injected (faults w) SYS_readlink d_name = None →
  injected (faults w) SYS_unlink d_name = None →
  injected (faults w) SYS_symlink d_name = None →
  ∃ s', loop_body w s d_name = Continue s'
        ∧ links s' = int_incr (links s)
        ∧ (target s !! 0 = Some SLASH →
           st_files s' = <[d_name := SymbolicLink "../.."]> (st_files s)
           ∧ fixed s' = int_incr (fixed s))
        ∧ (target s !! 0 ≠ Some SLASH →
           st_files s' = st_files s ∧ fixed s' = fixed s).
Proof. apply empty_target_round. Qed.

Lemma X13_empty_link_round_witness :
  ∃ s', loop_body (empty_alone SLASH) (initial (empty_alone SLASH)) "e"
        = Continue s'
        ∧ st_files s' !! "e"%string = Some (SymbolicLink "../..").
Proof.
  destruct (X13_empty_link_round (empty_alone SLASH)
              (initial (empty_alone SLASH)) "e")
    as (s' & Hb & _ & Hslash & _); try reflexivity.
  exists s'. split; [exact Hb|].
  destruct Hslash as [-> _]; [reflexivity|].
  apply lookup_insert_eq.
Defined.

(** ** Further properties of [cheridis] *)

Lemma append_assoc (s1 s2 s3 : string) :
  (s1 +:+ s2) +:+ s3 = s1 +:+ (s2 +:+ s3).
Proof.
  induction s1 as [|c s1 IH]; [done|].
  change (String c ((s1 +:+ s2) +:+ s3) = String c (s1 +:+ (s2 +:+ s3))).
  by rewrite IH.
Qed.

Lemma arguments_app (l1 l2 : list string) :
  Cheridis.arguments (l1 ++ l2)
  = Cheridis.arguments l1 +:+ Cheridis.arguments l2.
Proof.
  induction l1 as [|arg l1 IH]; [done|].
  change (Cheridis.instruction arg +:+ Cheridis.arguments (l1 ++ l2)
          = (Cheridis.instruction arg +:+ Cheridis.arguments l1)
              +:+ Cheridis.arguments l2).
  by rewrite IH, append_assoc.
Qed.

(** What one argument adds is 20 characters when it is passed on and
    nothing otherwise. *)
Lemma instruction_length (arg : string) :
  String.length (Cheridis.instruction arg) = if accepted arg then 20 else 0.
Proof.
  destruct (decide (String.length arg = 8)) as [H8|H8].
  { apply length_8 in H8 as (c1 & c2 & c3 & c4 & c5 & c6 & c7 & c8 & ->).
    reflexivity. }
  destruct (decide (String.length arg = 10)) as [H10|H10].
  - do 2 (destruct arg as [|? arg]; [discriminate H10|]).
    injection H10 as H10.
    apply length_8 in H10 as (c1 & c2 & c3 & c4 & c5 & c6 & c7 & c8 & ->).
    destruct (ascii_dec "0" a) as [<-|Ha].
    + destruct (ascii_dec "x" a0) as [<-|Ha0]; [reflexivity|].
      unfold accepted, Cheridis.instruction. cbv zeta.
      cbn [String.length Nat.eqb orb andb String.prefix String.get].
      rewrite decide_True by (right; congruence).
      destruct (ascii_dec "0" "0"); [|done].
      by destruct (ascii_dec "x" a0).
    + unfold accepted, Cheridis.instruction. cbv zeta.
      cbn [String.length Nat.eqb orb andb String.prefix String.get].
      rewrite decide_True by (left; congruence).
      by destruct (ascii_dec "0" a).
  - unfold accepted, Cheridis.instruction. cbv zeta.
    apply Nat.eqb_neq in H8, H10. by rewrite H8, H10.
Qed.

(** X14: the prefix makes no difference: an instruction of 8 characters
    written with ["0x"] in front gives the same tokens as without. *)
Theorem X14_prefix_makes_no_difference (digits : string) :
  String.length digits = 8 →
  Cheridis.instruction ("0x" +:+ digits) = Cheridis.instruction digits.
Proof.
  intros (c1 & c2 & c3 & c4 & c5 & c6 & c7 & c8 & ->)%length_8. reflexivity.
Qed.

Lemma X14_prefix_makes_no_difference_witness :
  Cheridis.instruction "0xdeadbeef" = Cheridis.instruction "deadbeef".
Proof. apply (X14_prefix_makes_no_difference "deadbeef"). reflexivity. Defined.

(** X15: the program writes 20 characters for each argument it passes
    on, an argument being passed on when it has 8 characters or has 10
    and starts with ["0x"], and nothing for any other argument or for
    the program name. *)
Theorem X15_output_length (argv : list string) :
  String.length (Cheridis.main argv)
  = 20 * length (List.filter accepted (tail argv)).
Proof.
  unfold Cheridis.main. induction (tail argv) as [|arg args IH]; [done|].
  change (String.length (Cheridis.instruction arg +:+ Cheridis.arguments args)
          = 20 * length (List.filter accepted (arg :: args))).
  rewrite length_append, instruction_length, IH.
  cbn [List.filter]. destruct (accepted arg); cbn [length]; lia.
Qed.

(** X16: two instructions of 8 characters that give the same tokens are
    the same instruction. *)
Theorem X16_instruction_injective (a b : string) :
  String.length a = 8 →
  String.length b = 8 →
  Cheridis.instruction a = Cheridis.instruction b →
  a = b.
Proof.
  intros (a1 & a2 & a3 & a4 & a5 & a6 & a7 & a8 & ->)%length_8
         (b1 & b2 & b3 & b4 & b5 & b6 & b7 & b8 & ->)%length_8 H.
  vm_compute in H. congruence.
Qed.

Lemma X16_instruction_injective_witness :
  "0123abcd"%string = "0123abcd"%string.
Proof. apply (X16_instruction_injective "0123abcd" "0123abcd"); reflexivity. Defined.

(** X17: the program name adds nothing, and the output for a list of
    arguments is the output for its first part followed by the output
    for its second part. *)
Theorem X17_output_of_parts (prog other : string) (args1 args2 : list string) :
  Cheridis.main (prog :: args1 ++ args2)
  = Cheridis.main (prog :: args1) +:+ Cheridis.main (other :: args2)
  ∧ Cheridis.main [prog] = EmptyString
  ∧ Cheridis.main [] = EmptyString.
Proof. split; [apply arguments_app|done]. Qed.

(** ** What the report counts, and what the directory becomes *)

(** A round in a world that refuses no call, on a name that still holds
    what the directory had at the start. *)
Lemma loop_body_counts w s d_name :
  (∀ c path, injected (faults w) c path = None) →
  length (target s) = sizeof_target →
  st_files s !! d_name = files w !! d_name →
  is_Some (files w !! d_name) →
  files w !! d_name ≠ Some (SymbolicLink "") →
  ∃ s', loop_body w s d_name = Continue s'
        ∧ links s' = (if is_link (files w) d_name
                      then int_incr (links s) else links s)
        ∧ fixed s' = (if is_absolute_link (files w) d_name
                      then int_incr (fixed s) else fixed s).
Proof.
  intros Hnf Hlen Hs Hsome Hne.
  destruct (loop_body_no_fault w s d_name Hnf) as (s' & Hb);
    [by rewrite Hs|].
  exists s'. split; [done|].
  unfold is_link, is_absolute_link. rewrite <- Hs in Hne, Hsome |- *.
  destruct (st_files s !! d_name) as [[| |[|c rest]]|] eqn:Hn; try done;
    try (by destruct Hsome).
  1,2: destruct (loop_body_not_a_link w s d_name) as (_ & Hl & Hx);
       [intros ?; by rewrite Hn|]; by rewrite Hb in Hl, Hx.
  case_bool_decide as Hc.
  - subst c.
    by destruct (loop_body_absolute w s d_name _ s' Hlen Hn eq_refl Hb)
      as (_ & _ & _ & -> & ->).
  - destruct (loop_body_relative w s d_name c rest Hn Hc)
      as (_ & Hx & _ & Hl).
    rewrite Hb in Hx. destruct (Hl (Hnf _ _)) as (s'' & Hb' & Hl').
    rewrite Hb in Hb'. injection Hb' as <-. simpl in Hx. by rewrite Hl', Hx.
Qed.

(** X18: when the system refuses no call, [readdir] returns each name
    once and only names of the directory, and no link has an empty
    target, the run reads the directory to its end, [links] is the
    number of names that were symbolic links and [fixed] the number of
    those whose target was absolute.  (For a directory whose number of
    entries fits an [int].) *)
Theorem X18_report_counts w :
  (∀ c path, injected (faults w) c path = None) →
  NoDup (dirents w) →
  (∀ name, name ∈ dirents w → is_Some (files w !! name)) →
  (∀ name, files w !! name ≠ Some (SymbolicLink "")) →
  (Z.of_nat (length (dirents w)) ≤ INT_MAX)%Z →
  ∃ s, scan w (initial w) (dirents w) = Continue s
       ∧ snd (main w) = s
       ∧ links s
         = Z.of_nat (length (List.filter (is_link (files w)) (dirents w)))
       ∧ fixed s
         = Z.of_nat (length (List.filter (is_absolute_link (files w)) (dirents w))).
Proof.
  intros Hnf Hnd Hall Hne Hmax.
  assert (Hgen : ∀ names s,
            NoDup names →
            length (target s) = sizeof_target →
            (∀ name, name ∈ names →
               st_files s !! name = files w !! name
               ∧ is_Some (files w !! name)) →
            (0 ≤ fixed s ≤ links s)%Z →
            (links s + Z.of_nat (length names) ≤ INT_MAX)%Z →
            ∃ s', scan w s names = Continue s'
                  ∧ links s' = (links s + Z.of_nat
                      (length (List.filter (is_link (files w)) names)))%Z
                  ∧ fixed s' = (fixed s + Z.of_nat
                      (length (List.filter (is_absolute_link (files w)) names)))%Z).
  { clear Hnd Hall Hmax.
    induction names as [|d rest IH]; intros s Hnd Hlen Hnames Hfl Hmax.
    - exists s. simpl. repeat split; lia.
    - apply NoDup_cons in Hnd as [Hd Hnd].
      destruct (Hnames d (list_elem_of_here _ _)) as [Hsd Hsome].
      destruct (loop_body_counts w s d Hnf Hlen Hsd Hsome (Hne d))
        as (s1 & Hb & Hl1 & Hx1).
      assert (is_absolute_link (files w) d = true → is_link (files w) d = true)
        as Himp.
      { unfold is_absolute_link, is_link.
        by destruct (files w !! d) as [[| |[|? ?]]|]. }
      simpl in Hmax.
      rewrite (int_incr_in_range (links s)) in Hl1 by lia.
      destruct (IH s1) as (s' & Hscan & Hl & Hx); try done.
      + pose proof (loop_body_length w s d Hlen) as H. by rewrite Hb in H.
      + intros name Hin. split; [|apply Hnames; by right].
        pose proof (loop_body_frame w s d name) as Hf. rewrite Hb in Hf.
        simpl in Hf. rewrite Hf; [apply Hnames; by right|].
        intros ->. done.
      + rewrite Hl1, Hx1.
        destruct (is_link (files w) d), (is_absolute_link (files w) d);
          rewrite ?int_incr_in_range by lia; try lia;
          by specialize (Himp eq_refl).
      + rewrite Hl1. destruct (is_link (files w) d); lia.
      + exists s'. simpl. rewrite Hb. split; [done|].
        rewrite Hl, Hx, Hl1, Hx1. cbn [List.filter].
        destruct (is_link (files w) d), (is_absolute_link (files w) d);
          rewrite ?int_incr_in_range by lia; cbn [length];
          try (split; lia);
          by specialize (Himp eq_refl). }
  destruct (Hgen (dirents w) (initial w)) as (s & Hscan & Hl & Hx); try done.
  - intros name Hin. split; [done|by apply Hall].
  - exists s. split; [done|]. split.
    + rewrite main_state, Hscan; [done|]. unfold sys_opendir. rewrite Hnf. eauto.
    + split; [rewrite Hl|rewrite Hx]; unfold initial; cbn; lia.
Qed.

Lemma X18_report_counts_witness :
  links (snd (main scenario)) = 2%Z ∧ fixed (snd (main scenario)) = 1%Z.
Proof.
  destruct (X18_report_counts scenario) as (s & _ & -> & -> & ->).
  - reflexivity.
  - apply (bool_decide_unpack _). by vm_compute.
  - intros name Hin. apply elem_of_dom.
    assert (dom (files scenario)
            = list_to_set (dirents scenario)) as -> by (by vm_compute).
    by apply elem_of_list_to_set.
  - intros name Hn%elem_of_list_to_map_2.
    repeat (apply elem_of_cons in Hn as [Hn|Hn]; [discriminate Hn|]).
    by apply elem_of_nil in Hn.
  - vm_compute. discriminate.
  - split; by vm_compute.
Defined.

(** What a pass that ran to its end has made of each name. *)
Lemma directory_after w s :
  scan w (initial w) (dirents w) = Continue s →
  (∀ name t, files w !! name = Some (SymbolicLink t) →
             t ≠ EmptyString ∧ nul_free t) →
  ∀ name,
    st_files s !! name
    = if decide (name ∈ dirents w)
      then fixup <$> files w !! name
      else files w !! name.
Proof.
  intros Hscan Hwf name.
  assert (Hother : name ∉ dirents w
                   ∨ (∀ t, files w !! name ≠ Some (SymbolicLink t)) →
                   st_files s !! name = files w !! name).
  { intros Hname.
    destruct (scan_leaves_others w name (dirents w) (initial w)) as [H _];
      [done|by unfold initial; cbn|].
    by rewrite Hscan in H. }
  case_decide as Hin; [|by apply Hother; left].
  destruct (files w !! name) as [[| |t]|] eqn:Hn;
    try (apply Hother; right; by intros ?).
  destruct (Hwf name t Hn) as [Hne Hnf].
  destruct t as [|c rest]; [done|]. cbn [fmap option_fmap option_map fixup].
  destruct (decide (c = SLASH)) as [->|Hc].
  - destruct (scan_rewrites w (dirents w) (initial w) s name _
                (length_initial w) Hin Hn eq_refl Hscan) as (x & -> & Hx).
    by rewrite (Hx Hnf).
  - pose proof (scan_keeps_relative w (initial w) (dirents w) name c rest Hn Hc)
      as Hk.
    by rewrite Hscan in Hk.
Qed.

(** X19: after a successful run over a directory whose links have
    targets that are not empty, each name that [readdir] returned holds
    what [fixup] makes of what it held (an absolute link rewritten,
    anything else as it was), and each other name holds what it held. *)
Theorem X19_directory_after w out s :
  main w = (Exited 0 out, s) →
  (∀ name t, files w !! name = Some (SymbolicLink t) →
             t ≠ EmptyString ∧ nul_free t) →
  ∀ name,
    st_files s !! name
    = if decide (name ∈ dirents w)
      then fixup <$> files w !! name
      else files w !! name.
Proof. intros (Hscan & _)%main_Exited. by apply directory_after. Qed.

Lemma X19_directory_after_witness :
  st_files (snd (main scenario)) !! "a"%string
  = Some (SymbolicLink "../../opt/x/y").
Proof.
  rewrite (X19_directory_after scenario (summary (snd (main scenario)))
             (snd (main scenario))).
  - vm_compute. reflexivity.
  - vm_compute. reflexivity.
  - intros name t Hn%elem_of_list_to_map_2.
    repeat (apply elem_of_cons in Hn as [Hn|Hn];
            [first [discriminate Hn
                   |injection Hn as -> ->;
                    split; [done|unfold nul_free; simpl;
                            repeat (constructor; [discriminate|]); constructor]]|]).
    by apply elem_of_nil in Hn.
Defined.

(** X20: the order in which [readdir] returns the names, and how often
    it returns a name, makes no difference to the directory a
    successful run leaves (for links with targets that are not empty). *)
Theorem X20_order_makes_no_difference w1 w2 out1 out2 s1 s2 :
  main w1 = (Exited 0 out1, s1) →
  main w2 = (Exited 0 out2, s2) →
  files w1 = files w2 →
  (∀ name, name ∈ dirents w1 ↔ name ∈ dirents w2) →
  (∀ name t, files w1 !! name = Some (SymbolicLink t) →
             t ≠ EmptyString ∧ nul_free t) →
  st_files s1 = st_files s2.
Proof.
  intros (Hscan1 & _)%main_Exited (Hscan2 & _)%main_Exited Hfs Hd Hwf.
  apply map_eq. intros name.
  rewrite (directory_after w1 s1 Hscan1 Hwf name).
  rewrite (directory_after w2 s2 Hscan2) by (by rewrite <- Hfs).
  rewrite Hfs.
  destruct (decide (name ∈ dirents w1)) as [H1|H1],
           (decide (name ∈ dirents w2)) as [H2|H2]; try done.
  - by apply Hd in H1.
  - by apply Hd in H2.
Qed.

Lemma X20_order_makes_no_difference_witness :
  st_files (snd (main scenario)) = st_files (snd (main (reordered scenario))).
Proof.
  apply (X20_order_makes_no_difference scenario (reordered scenario)
           (summary (snd (main scenario)))
           (summary (snd (main (reordered scenario))))).
  - vm_compute. reflexivity.
  - vm_compute. reflexivity.
  - reflexivity.
  - intros name. unfold reordered. cbn [dirents]. by rewrite elem_of_reverse.
  - intros name t Hn%elem_of_list_to_map_2.
    repeat (apply elem_of_cons in Hn as [Hn|Hn];
            [first [discriminate Hn
                   |injection Hn as -> ->;
                    split; [done|unfold nul_free; simpl;
                            repeat (constructor; [discriminate|]); constructor]]|]).
    by apply elem_of_nil in Hn.
Defined.
